(** * OnionIngestor: the operator base class (filter and dispatch)

    A shallow embedding of [onioningestor/operators/__init__.py]:
    the exclusion matcher built by [Operator.__init__], the envelope builder
    [Operator.response], the classifier [Operator._onion_is_allowed] and the
    dispatch loop [Operator.process].

    - Python objects: dictionaries live in a heap addressed by location, so
      that the in-place updates of [_onion_is_allowed] are seen by every
      holder of the envelope; a dictionary is a finite map on string keys.
    - Effects: a state (heap and trace) is passed along, and a computation
      ends with a value or with an exception.  The calls to the collaborators
      (logger, standard output, archival store, handler of the subclass) are
      recorded in the trace; the store and the handler may raise.
    - Library code: the part of [re] the constructor uses (escape, the
      parser on literals and alternation, findall) is modelled; the builtins
      [str] and [json.loads] are parameters of [response] and [process].
    - Text is modelled by [string], with characters in the ASCII range:
      the model of IGNORECASE folds the letters A to Z only, where [re]
      folds Unicode, so that what is stated of the matcher up to case is
      stated of ASCII words and texts ([ascii_only]). *)

From Stdlib Require Import Ascii String.
From stdpp Require Import gmap strings list pretty.

(** ** The fragment of Python's [re] module used by the constructor *)

Module Re.

(** [re._special_chars_map]: the characters [re.escape] prefixes with a
    backslash (Python 3.7 and later); the last five are tab, newline,
    carriage return, vertical tab and form feed. *)
Definition special_chars : list ascii :=
  list_ascii_of_string "()[]{}?*+-|^$\.&~# " ++
  [ascii_of_nat 9; ascii_of_nat 10; ascii_of_nat 13; ascii_of_nat 11; ascii_of_nat 12].

Definition is_special (c : ascii) : bool :=
  existsb (Ascii.eqb c) special_chars.

(** [re.escape(word)] *)
Fixpoint escape (s : string) : string :=
  match s with
  | EmptyString => EmptyString
  | String c s' =>
      if is_special c then String "\" (String c (escape s'))
      else String c (escape s')
  end.

(** [sep.join(words)] *)
Fixpoint join (sep : string) (l : list string) : string :=
  match l with
  | [] => ""
  | w :: l' =>
      match l' with
      | [] => w
      | _ :: _ => w +:+ sep +:+ join sep l'
      end
  end.

(** Characters that are operators of the pattern syntax when they are not
    escaped (the bar is handled apart, the backslash introduces an escape). *)
Definition is_meta (c : ascii) : bool :=
  existsb (Ascii.eqb c) (list_ascii_of_string ".^$*+?{}[]()").

Definition in_range (lo hi : nat) (c : ascii) : bool :=
  (lo <=? nat_of_ascii c)%nat && (nat_of_ascii c <=? hi)%nat.

(** ASCII letters and digits: a backslash before one of them is a class, an
    anchor, a back-reference or a bad escape, never that character. *)
Definition is_ascii_alnum (c : ascii) : bool :=
  in_range 48 57 c || in_range 65 90 c || in_range 97 122 c.

(** A compiled pattern of the fragment: an ordered alternation of literal
    words, and the IGNORECASE flag. *)
Record pattern := Pattern { alts : list string; ignorecase : bool }.

Definition add_char (c : ascii) (branches : list string) : list string :=
  match branches with
  | [] => [String c ""]
  | a :: r => String c a :: r
  end.

(** The pattern parser on the fragment: a bar starts a new branch, a
    backslash followed by a character that is not an ASCII letter or digit
    stands for that character, any other character that is not an operator
    stands for itself.  [None] is given for a pattern that uses an operator,
    a class or a dangling backslash: such a pattern is either rejected by
    [re.compile] or lies outside the fragment. *)
Fixpoint parse (p : string) : option (list string) :=
  match p with
  | EmptyString => Some [""]
  | String c p' =>
      if Ascii.eqb c "\" then
        match p' with
        | EmptyString => None
        | String d p'' =>
            if is_ascii_alnum d then None else add_char d <$> parse p''
        end
      else if Ascii.eqb c "|" then cons "" <$> parse p'
      else if is_meta c then None
      else add_char c <$> parse p'
  end.

(** [re.compile(p, flags)], the flag being [re.IGNORECASE] or nothing *)
Definition compile (p : string) (icase : bool) : option pattern :=
  (fun branches => Pattern branches icase) <$> parse p.

(** Lower-casing a character: 'A'..'Z' go to 'a'..'z'.  This is the
    folding of IGNORECASE on ASCII characters; outside ASCII [re] folds more
    (Unicode), which is not modelled. *)
Definition lower (c : ascii) : ascii :=
  if in_range 65 90 c then ascii_of_nat (nat_of_ascii c + 32) else c.

Definition char_eq (icase : bool) (a b : ascii) : bool :=
  if icase then Ascii.eqb (lower a) (lower b) else Ascii.eqb a b.

(** Match the literal word [w] at the start of [s]; the result is the
    matched text (a prefix of [s]). *)
Fixpoint match_lit (icase : bool) (w s : string) : option string :=
  match w with
  | EmptyString => Some ""
  | String a w' =>
      match s with
      | EmptyString => None
      | String b s' =>
          if char_eq icase a b then String b <$> match_lit icase w' s' else None
      end
  end.

Definition is_empty (s : string) : bool :=
  match s with EmptyString => true | String _ _ => false end.

(** Match the alternation at the start of [s]: branches are tried in order.
    With [must_advance] an empty match is refused and the next branch is
    tried. *)
Fixpoint match_alts (icase must_advance : bool) (branches : list string)
    (s : string) : option string :=
  match branches with
  | [] => None
  | w :: r =>
      match match_lit icase w s with
      | Some m =>
          if must_advance && is_empty m then match_alts icase must_advance r s
          else Some m
      | None => match_alts icase must_advance r s
      end
  end.

Definition match_at (p : pattern) (must_advance : bool) (s : string) : option string :=
  match_alts (ignorecase p) must_advance (alts p) s.

(** The scan of [findall]: [s] is the text from the current position on and
    [skip] the number of characters of it that the last match still covers.
    Every position up to and including the end of the text is tried; after an
    empty match the same position is tried once more for a match that is not
    empty. *)
Fixpoint findall_from (p : pattern) (skip : nat) (s : string) {struct s} : list string :=
  match skip with
  | S k =>
      match s with
      | EmptyString => []
      | String _ s' => findall_from p k s'
      end
  | O =>
      match match_at p false s with
      | None =>
          match s with
          | EmptyString => []
          | String _ s' => findall_from p 0 s'
          end
      | Some EmptyString =>
          "" ::
          match match_at p true s with
          | None =>
              match s with
              | EmptyString => []
              | String _ s' => findall_from p 0 s'
              end
          | Some m' =>
              m' ::
              match s with
              | EmptyString => []
              | String _ s' => findall_from p (pred (String.length m')) s'
              end
          end
      | Some m =>
          m ::
          match s with
          | EmptyString => []
          | String _ s' => findall_from p (pred (String.length m)) s'
          end
      end
  end.

(** [pattern.findall(text)] for a pattern without groups: the matched
    texts, left to right, not overlapping. *)
Definition findall (p : pattern) (text : string) : list string :=
  findall_from p 0 text.

End Re.

(** ** Python values, the heap and the trace of external calls *)

Definition loc := nat.

(** Values: dictionaries are objects of the heap, reached through [VRef];
    the other values are immutable and carried as they are. *)
#[warnings="-register-all"]
Inductive value :=
| VNone
| VBool (b : bool)
| VInt (n : Z)
| VStr (s : string)
| VList (l : list value)
| VRef (l : loc).

Abbreviation dict := (gmap string value).
Abbreviation heap := (list (gmap string value)).

Inductive exn :=
| TypeError
| KeyError (k : string)
| AttributeError
| UnboundLocalError
| NotImplementedError
| JSONDecodeError
| ReError
| OtherError (name : string).

Inductive result (A : Type) :=
| Ok (a : A)
| Raise (e : exn).
Arguments Ok {A} a.
Arguments Raise {A} e.

(** What the collaborators are asked to do, in the order of the calls.
    [ESave] keeps the heap of the moment of the call: the store receives the
    envelope as it is then. *)
Inductive event :=
| EPrint (v : value)
| ELogInfo (msg : string)
| ELogError (e : exn)
| ESave (v : value) (h : heap)
| EHandle (address : string).

Record state := State { heap_of : heap; trace : list event }.

(** Computations: state passing with exceptions; the state reached when an
    exception is raised is kept. *)
Definition M (A : Type) := state -> result A * state.

Definition ret {A} (a : A) : M A := fun st => (Ok a, st).

Definition bind {A B} (m : M A) (k : A -> M B) : M B :=
  fun st =>
    match m st with
    | (Ok a, st') => k a st'
    | (Raise e, st') => (Raise e, st')
    end.

Definition raise {A} (e : exn) : M A := fun st => (Raise e, st).

(** [try: body except ...: handler] *)
Definition try_except {A} (body : M A) (handler : exn -> M A) : M A :=
  fun st =>
    match body st with
    | (Ok a, st') => (Ok a, st')
    | (Raise e, st') => handler e st'
    end.

Notation "'let*' x ':=' m 'in' k" := (bind m (fun x => k))
  (at level 10, x name, m at level 100, k at level 200).
Notation "m ';;' k" := (bind m (fun _ => k))
  (at level 100, k at level 200, right associativity).

Definition emit (e : event) : M unit :=
  fun st => (Ok tt, State (heap_of st) (trace st ++ [e])).

(** A new dictionary object, at the first free location. *)
Definition alloc (d : dict) : M value :=
  fun st => (Ok (VRef (length (heap_of st))), State (heap_of st ++ [d]) (trace st)).

(** The dictionary a value refers to, if it is one. *)
Definition deref (h : heap) (v : value) : option dict :=
  match v with
  | VRef l => h !! l
  | _ => None
  end.

(** A dictionary display [{k1: v1, k2: v2, ...}]: the entries are inserted
    from left to right, a later entry replacing an earlier one with the same
    key. *)
Definition dict_display (entries : list (string * value)) : dict :=
  foldl (fun d kv => <[kv.1 := kv.2]> d) ∅ entries.

Definition new_dict (entries : list (string * value)) : M value :=
  alloc (dict_display entries).

(** [v[k]] *)
Definition getitem (v : value) (k : string) : M value :=
  fun st =>
    match deref (heap_of st) v with
    | Some d =>
        match d !! k with
        | Some x => (Ok x, st)
        | None => (Raise (KeyError k), st)
        end
    | None => (Raise TypeError, st)
    end.

(** [v[k] = x] *)
Definition setitem (v : value) (k : string) (x : value) : M unit :=
  fun st =>
    match v with
    | VRef l =>
        match heap_of st !! l with
        | Some d => (Ok tt, State (<[l := <[k := x]> d]> (heap_of st)) (trace st))
        | None => (Raise TypeError, st)
        end
    | _ => (Raise TypeError, st)
    end.

(** [v.pop(k)] *)
Definition pop (v : value) (k : string) : M value :=
  fun st =>
    match v with
    | VRef l =>
        match heap_of st !! l with
        | Some d =>
            match d !! k with
            | Some x => (Ok x, State (<[l := delete k d]> (heap_of st)) (trace st))
            | None => (Raise (KeyError k), st)
            end
        | None => (Raise AttributeError, st)
        end
    | VList _ => (Raise TypeError, st)
    | _ => (Raise AttributeError, st)
    end.

(** [print(v)] *)
Definition print (v : value) : M unit := emit (EPrint v).

(** ** The operator *)

(** The archival store and the handler of a subclass are collaborators:
    each is given by what a call does, returning ([None]) or raising, in the
    state in which it is made. *)
Definition Store := state -> value -> option exn.
Definition Handler := state -> string -> option exn.

(** An operator instance: the fields [blacklist] and [es] set by the
    constructor, and the [handle_onion] method of its class.  The field
    [logger] is the log kept in the trace. *)
Record Operator := {
  blacklist : Re.pattern;
  es : Store;
  handle_onion_method : Handler
}.

(** A record of the collector; only its [url] is read here. *)
Record Onion := { url : string }.

(** [Operator.handle_onion] of the base class: [raise NotImplementedError()] *)
Definition base_handle_onion : Handler := fun _ _ => Some NotImplementedError.

(** [Operator.__init__(self, logger, elasticsearch, allowed_sources=None)]:
    [None] for [allowed_sources] is Python's None, which cannot be iterated. *)
Definition init (elasticsearch : Store) (allowed_sources : option (list string))
  : result Operator :=
  match allowed_sources with
  | None => Raise TypeError
  | Some words =>
      match Re.compile (Re.join "|" (map Re.escape words)) true with
      | Some p =>
          Ok {| blacklist := p; es := elasticsearch;
                handle_onion_method := base_handle_onion |}
      | None => Raise ReError
      end
  end.

(** A subclass instance: the same fields, [handle_onion] overridden. *)
Definition subclass (base : Operator) (h : Handler) : Operator :=
  {| blacklist := blacklist base; es := es base; handle_onion_method := h |}.

Definition log_info (msg : string) : M unit := emit (ELogInfo msg).
Definition log_error (e : exn) : M unit := emit (ELogError e).

(** [self.es.save(v)] *)
Definition save (self : Operator) (v : value) : M unit :=
  fun st =>
    let st' := State (heap_of st) (trace st ++ [ESave v (heap_of st)]) in
    match es self st v with
    | None => (Ok tt, st')
    | Some e => (Raise e, st')
    end.

(** [self.handle_onion(url)] *)
Definition handle_onion (self : Operator) (u : string) : M unit :=
  fun st =>
    let st' := State (heap_of st) (trace st ++ [EHandle u]) in
    match handle_onion_method self st u with
    | None => (Ok tt, st')
    | Some e => (Raise e, st')
    end.

(** [self.blacklist.findall(v)]: the subject must be a string. *)
Definition findall (self : Operator) (v : value) : M (list string) :=
  match v with
  | VStr s => ret (Re.findall (blacklist self) s)
  | _ => raise TypeError
  end.

(** Truth value of a list: it is not empty. *)
Definition truthy {A} (l : list A) : bool :=
  match l with [] => false | _ :: _ => true end.

(** [Operator._onion_is_allowed(self, response, type='URL')] *)
Definition _onion_is_allowed (self : Operator) (response : value) (type : string)
  : M bool :=
  let* found :=
    if String.eqb type "URL" then
      print response;;
      let* subject := getitem response "hiddenService" in
      findall self subject
    else if String.eqb type "HTML" then
      let* sub := getitem response "simple-html" in
      let* _ := pop sub "status" in
      let* sub := getitem response "simple-html" in
      setitem sub "status" (VStr "blocked");;
      let* sub := getitem response "simple-html" in
      let* subject := getitem sub "HTML" in
      findall self subject
    else raise UnboundLocalError
  in
  if truthy found then
    save self response;;
    ret false
  else ret true.

(** What the classifier does for the kind HTML once the status of the
    [simple-html] entry has been replaced. *)
Definition html_rest (self : Operator) (response : value) : M bool :=
  let* found :=
    (let* sub := getitem response "simple-html" in
     let* subject := getitem sub "HTML" in
     findall self subject) in
  if truthy found then
    save self response;;
    ret false
  else ret true.

(** The status marker [{'status': 'blocked'}] that [process] hands to
    [response], and the text [str] gives for it. *)
Definition blocked_marker : list (string * value) := [("status", VStr "blocked")].
Definition blocked_marker_text : string := "{'status': 'blocked'}".

Section Builtins.

(** The builtins [str] and [json.loads] of the interpreter: [str] reads the
    heap, [json.loads] gives the decoded value and the heap holding the
    dictionaries it has built. *)
Variable py_str : heap -> value -> result string.
Variable json_loads : string -> heap -> result (value * heap).

Definition str (v : value) : M string :=
  fun st => (py_str (heap_of st) v, st).

Definition loads (s : string) : M value :=
  fun st =>
    match json_loads s (heap_of st) with
    | Ok (v, h') => (Ok v, State h' (trace st))
    | Raise e => (Raise e, st)
    end.

(** [Operator.response(self, content, onion, operator_name)]; the result is
    [VNone] when the last handler is taken, which returns nothing. *)
Definition response (self : Operator) (content : value) (onion : string)
    (operator_name : string) : M value :=
  try_except
    (let* text := str content in
     let* decoded := loads text in
     new_dict [(operator_name, decoded); ("hiddenService", VStr onion)])
    (fun e =>
       match e with
       | JSONDecodeError =>
           log_info "JosnDecode Error";;
           new_dict [(operator_name, content); ("hiddenService", VStr onion)]
       | _ =>
           log_error e;;
           ret VNone
       end).

(** The body of the loop of [process], for one record. *)
Definition process_one (self : Operator) (onion : Onion) : M unit :=
  let* marker := new_dict blocked_marker in
  let* candidate := response self marker (url onion) "regex-blacklist" in
  let* allowed := _onion_is_allowed self candidate "URL" in
  if allowed then handle_onion self (url onion) else ret tt.

(** [Operator.process(self, onions)] *)
Fixpoint process (self : Operator) (onions : list Onion) : M unit :=
  match onions with
  | [] => ret tt
  | onion :: rest => process_one self onion;; process self rest
  end.

End Builtins.

(** The word [w] put in front of the first branch. *)
Definition prepend (w : string) (branches : list string) : list string :=
  match branches with
  | [] => [w]
  | a :: r => (w +:+ a) :: r
  end.

(** ** Words of the claims *)

(** The text with its letters in lower case. *)
Fixpoint fold_case (s : string) : string :=
  match s with
  | EmptyString => EmptyString
  | String c s' => String (Re.lower c) (fold_case s')
  end.

(** The literal [w] occurs in [text], case being ignored: some stretch of
    [text] is [w] up to the case of the letters. *)
Definition ci_substring (w text : string) : Prop :=
  exists pre mid post,
    text = pre +:+ mid +:+ post /\ fold_case mid = fold_case w.

(** A text all of whose characters are ASCII (codes below 128). *)
Fixpoint ascii_only (s : string) : bool :=
  match s with
  | EmptyString => true
  | String c s' => (nat_of_ascii c <? 128)%nat && ascii_only s'
  end.

(** The two terminal outcomes of a record: archived as blocked, under the
    address the archived envelope carries, or handed to the handler. *)
Inductive outcome :=
| Archived (address : option value)
| Handled (u : string).

Definition address_of (h : heap) (envelope : value) : option value :=
  deref h envelope ≫= (fun d => d !! "hiddenService").

Definition terminal (e : event) : option outcome :=
  match e with
  | ESave v h => Some (Archived (address_of h v))
  | EHandle u => Some (Handled u)
  | _ => None
  end.

Definition outcomes (evs : list event) : list outcome := omap terminal evs.

Definition is_save (e : event) : bool :=
  match e with ESave _ _ => true | _ => false end.
Definition is_handle (e : event) : bool :=
  match e with EHandle _ => true | _ => false end.

(** Number of archival writes and of handler calls in a run of events. *)
Definition archived (evs : list event) : nat := length (filter is_save evs).
Definition handled (evs : list event) : nat := length (filter is_handle evs).

(** Whether the matcher of the operator excludes a text. *)
Definition excluded (self : Operator) (text : string) : bool :=
  truthy (Re.findall (blacklist self) text).

(** The outcome the classification of a record calls for. *)
Definition expected (self : Operator) (onion : Onion) : outcome :=
  if excluded self (url onion) then Archived (Some (VStr (url onion)))
  else Handled (url onion).

(** The text [_onion_is_allowed] tests for an envelope at [r]: its address
    for the kind URL, the HTML text of its [simple-html] entry (which must
    have a status to drop) for the kind HTML. *)
Definition subject_of (h : heap) (r : loc) (kind : string) : option string :=
  d ← h !! r;
  if String.eqb kind "URL" then
    match d !! "hiddenService" with
    | Some (VStr address) => Some address
    | _ => None
    end
  else if String.eqb kind "HTML" then
    match d !! "simple-html" with
    | Some (VRef r2) =>
        d2 ← h !! r2;
        _ ← d2 !! "status";
        match d2 !! "HTML" with
        | Some (VStr html) => Some html
        | _ => None
        end
    | _ => None
    end
  else None.

(** The result of a method that returns [a] after a call of a collaborator. *)
Definition answer {A} (o : option exn) (a : A) : result A :=
  match o with
  | None => Ok a
  | Some e => Raise e
  end.

(** What the dispatch loop relies on from the builtins: [str] renders a
    dictionary holding the blocked marker as [blocked_marker_text], and
    [json.loads] rejects that text (its strings are in single quotes). *)
Definition renders_marker (py_str : heap -> value -> result string) : Prop :=
  forall (h : heap) (l : loc),
    h !! l = Some (dict_display blocked_marker) ->
    py_str h (VRef l) = Ok blocked_marker_text.

Definition rejects_marker (json_loads : string -> heap -> result (value * heap)) : Prop :=
  forall h : heap, json_loads blocked_marker_text h = Raise JSONDecodeError.

(** A decoded value is never the text it was decoded from: the text of a
    JSON string carries its quotes. *)
Definition decodes_strictly (json_loads : string -> heap -> result (value * heap)) : Prop :=
  forall (s : string) (h h' : heap) (v : value),
    json_loads s h = Ok (v, h') -> v <> VStr s.

(** The candidate envelope [process] builds for the address [u], its marker
    being at [n]. *)
Definition candidate (n : loc) (u : string) : dict :=
  dict_display [("regex-blacklist", VRef n); ("hiddenService", VStr u)].

(** A store that accepts every write and a handler that always returns. *)
Definition quiet_store : Store := fun _ _ => None.
Definition quiet_handler : Handler := fun _ _ => None.

(** ** A small interpreter for running the model

    Stand-ins for [str] and [json.loads] on the few values and texts the
    examples use: [demo_str] renders strings, None, booleans, integers and
    the blocked marker, and is not meant for lists and other dictionaries;
    [demo_loads] decodes the texts [1], [null] and the object with the one
    entry a: 1, and rejects every other text; [deep_loads] adds to it the
    failure of the decoder on a text nested beyond the recursion limit. *)

Definition dq : string := String (ascii_of_nat 34) "".

Definition is_blocked_marker (d : dict) : bool :=
  (size d =? 1)%nat &&
  match d !! "status" with
  | Some (VStr s) => String.eqb s "blocked"
  | _ => false
  end.

Definition demo_str (h : heap) (v : value) : result string :=
  match v with
  | VStr s => Ok s
  | VNone => Ok "None"
  | VBool b => Ok (if b then "True" else "False")
  | VInt n => Ok (pretty n)
  | VRef l =>
      match h !! l with
      | Some d =>
          if is_blocked_marker d then Ok blocked_marker_text
          else Raise (OtherError "not rendered")
      | None => Raise (OtherError "not rendered")
      end
  | _ => Raise (OtherError "not rendered")
  end.

Definition object_a1 : string := "{" +:+ dq +:+ "a" +:+ dq +:+ ":1}".

Definition demo_loads (s : string) (h : heap) : result (value * heap) :=
  if String.eqb s "1" then Ok (VInt 1, h)
  else if String.eqb s "null" then Ok (VNone, h)
  else if String.eqb s object_a1 then Ok (VRef (length h), h ++ [{["a" := VInt 1]}])
  else Raise JSONDecodeError.

(** Number of brackets a text opens with. *)
Fixpoint leading_brackets (s : string) : N :=
  match s with
  | String "[" s' => N.succ (leading_brackets s')
  | _ => 0%N
  end.

(** A nesting no release of the interpreter decodes with its default
    recursion limit. *)
Definition too_deep : N := 100000.

(** [json.loads] raises RecursionError, not a decode error, on a text that
    opens more arrays than the recursion limit allows. *)
Definition deep_loads (s : string) (h : heap) : result (value * heap) :=
  if (too_deep <=? leading_brackets s)%N then Raise (OtherError "RecursionError")
  else demo_loads s h.

(** A payload of [too_deep] opening brackets. *)
Definition deep_text : string :=
  string_of_list_ascii (repeat "["%char (N.to_nat too_deep)).

Definition empty_state : state := State [] [].

(** Data of the examples. *)
Definition html_envelope : dict :=
  dict_display [("simple-html", VRef 1); ("hiddenService", VStr "http://legit.onion/y")].
Definition html_entry : dict :=
  dict_display [("status", VStr "success"); ("HTML", VStr "<p>hello</p>")].
Definition spam_operator : Operator :=
  {| blacklist := Re.Pattern ["spamsite"] true; es := quiet_store;
     handle_onion_method := quiet_handler |}.

Definition two_records : list Onion :=
  [ {| url := "http://spamsite.onion/x" |}; {| url := "http://legit.onion/y" |} ].

(** An operator of the base class: its handler is not implemented. *)
Definition base_operator : Operator :=
  {| blacklist := Re.Pattern ["spamsite"] true; es := quiet_store;
     handle_onion_method := base_handle_onion |}.

Definition three_records : list Onion :=
  [ {| url := "http://spamsite.onion/x" |}; {| url := "http://legit.onion/y" |};
    {| url := "http://spamsite.onion/z" |} ].

(** Whether every record of a batch is excluded. *)
Definition all_excluded (self : Operator) (onions : list Onion) : bool :=
  forallb (fun onion => excluded self (url onion)) onions.

(** Envelopes of the kind HTML whose [simple-html] entry lacks the status,
    or the HTML text. *)
Definition html_entry_without_status : dict :=
  dict_display [("HTML", VStr "<p>hello</p>")].
Definition html_entry_without_text : dict :=
  dict_display [("status", VStr "success")].

(** ** Facts on the pattern fragment *)

Lemma append_cons c (s t : string) : String c s +:+ t = String c (s +:+ t).
Proof. reflexivity. Qed.

Lemma append_empty_l (t : string) : "" +:+ t = t.
Proof. reflexivity. Qed.

Lemma append_empty_r (s : string) : s +:+ "" = s.
Proof. induction s as [|c s IH]; [reflexivity|]. by rewrite append_cons, IH. Qed.

Ltac all_chars c :=
  destruct c as [[] [] [] [] [] [] [] []]; vm_compute; try done; auto.

Lemma special_not_alnum c :
  Re.is_special c = true -> Re.is_ascii_alnum c = false.
Proof. all_chars c. Qed.

Lemma plain_not_operator c :
  Re.is_special c = false ->
  Ascii.eqb c "\" = false /\ Ascii.eqb c "|" = false /\ Re.is_meta c = false.
Proof. all_chars c. Qed.

Lemma add_char_prepend c w branches :
  Re.add_char c (prepend w branches) = prepend (String c w) branches.
Proof. by destruct branches. Qed.

Lemma add_char_nonempty c branches : Re.add_char c branches <> [].
Proof. by destruct branches. Qed.

(** The parser gives at least one branch. *)
Lemma parse_nonempty p : Re.parse p <> Some [].
Proof.
  assert (H : forall n p, String.length p <= n -> Re.parse p <> Some []).
  { clear p. induction n as [|n IH]; intros [|c p] Hlen; simpl in *; try done; try lia.
    destruct (Ascii.eqb c "\").
    - destruct p as [|d p]; [done|]. destruct (Re.is_ascii_alnum d); [done|].
      specialize (IH p). simpl in Hlen.
      destruct (Re.parse p) as [b|]; [|done]. simpl. intros [= E].
      by apply add_char_nonempty in E.
    - destruct (Ascii.eqb c "|").
      + destruct (Re.parse p); done.
      + destruct (Re.is_meta c); [done|].
        destruct (Re.parse p) as [b|]; [|done]. simpl. intros [= E].
        by apply add_char_nonempty in E. }
  by apply (H (String.length p)).
Qed.

(** An escaped word is read back as that word, whatever its characters. *)
Lemma parse_escape w rest :
  Re.parse (Re.escape w +:+ rest) = prepend w <$> Re.parse rest.
Proof.
  induction w as [|c w IH]; simpl.
  - rewrite append_empty_l. pose proof (parse_nonempty rest) as Hne.
    destruct (Re.parse rest) as [[|a r]|]; done.
  - destruct (Re.is_special c) eqn:Hc.
    + rewrite !append_cons. simpl.
      rewrite (special_not_alnum c Hc), IH.
      destruct (Re.parse rest) as [b|]; [|done]. simpl.
      by rewrite add_char_prepend.
    + rewrite !append_cons. simpl.
      destruct (plain_not_operator c Hc) as (-> & -> & ->). rewrite IH.
      destruct (Re.parse rest) as [b|]; [|done]. simpl.
      by rewrite add_char_prepend.
Qed.

(** The pattern the constructor builds is read back as the alternation of
    the configured words. *)
Lemma parse_join_escape (words : list string) :
  words <> [] ->
  Re.parse (Re.join "|" (map Re.escape words)) = Some words.
Proof.
  induction words as [|w [|w2 r] IH]; intros Hne; [done| |].
  - simpl. rewrite <- (append_empty_r (Re.escape w)), parse_escape. simpl.
    by rewrite append_empty_r.
  - change (Re.join "|" (map Re.escape (w :: w2 :: r)))
      with (Re.escape w +:+ "|" +:+ Re.join "|" (map Re.escape (w2 :: r))).
    rewrite parse_escape.
    change ("|" +:+ ?x) with (String "|" x). 
    cbn [Re.parse]. change (Ascii.eqb "|" "\") with false.
    change (Ascii.eqb "|" "|") with true. cbv iota.
    rewrite IH by done. simpl. by rewrite append_empty_r.
Qed.

Lemma parse_join_escape_nil :
  Re.parse (Re.join "|" (map Re.escape [])) = Some [""].
Proof. reflexivity. Qed.

Lemma fold_case_empty m : fold_case m = "" -> m = "".
Proof. by destruct m. Qed.

Lemma match_lit_sound w s m :
  Re.match_lit true w s = Some m ->
  exists post, s = m +:+ post /\ fold_case m = fold_case w.
Proof.
  revert s m. induction w as [|a w IH]; intros s m; simpl.
  - intros [= <-]. by exists s.
  - destruct s as [|b s]; [done|]. unfold Re.char_eq.
    destruct (Ascii.eqb_spec (Re.lower a) (Re.lower b)) as [Hab|Hab]; [|done].
    destruct (Re.match_lit true w s) as [m'|] eqn:Hm'; [|done].
    intros [= <-]. apply IH in Hm' as (post & -> & Hfold).
    exists post. split; [done|]. simpl. by rewrite Hab, Hfold.
Qed.

Lemma match_lit_complete w m post :
  fold_case m = fold_case w ->
  Re.match_lit true w (m +:+ post) = Some m.
Proof.
  revert m. induction w as [|a w IH]; intros m Hm; simpl in *.
  - apply fold_case_empty in Hm. by subst.
  - destruct m as [|b m]; [done|]. simpl in Hm. injection Hm as Hc Hm.
    rewrite append_cons. unfold Re.char_eq. rewrite Hc, Ascii.eqb_refl.
    by rewrite (IH m Hm).
Qed.

(** A literal matches at the start of a text exactly when the text starts
    with that literal up to case; the match is that start of the text. *)
Lemma match_lit_spec w s m :
  Re.match_lit true w s = Some m <->
  exists post, s = m +:+ post /\ fold_case m = fold_case w.
Proof.
  split; [apply match_lit_sound|].
  intros (post & -> & Hm). by apply match_lit_complete.
Qed.

(** Without the must-advance rule an alternation matches at a position
    exactly when one of its branches does. *)
Lemma match_alts_some icase branches s :
  is_Some (Re.match_alts icase false branches s) <->
  exists w, w ∈ branches /\ is_Some (Re.match_lit icase w s).
Proof.
  induction branches as [|w r IH]; simpl.
  - split; [by intros [? ?]|]. intros (w & Hw & _). by apply elem_of_nil in Hw.
  - destruct (Re.match_lit icase w s) as [m|] eqn:Hm.
    + split; [|by eauto]. intros _. exists w. rewrite Hm. split; [left|eauto].
    + rewrite IH. split.
      * intros (w' & Hw' & Hs). exists w'. split; [by right|done].
      * intros (w' & [->|Hw']%elem_of_cons & Hs); [|by eauto].
        rewrite Hm in Hs. by destruct Hs.
Qed.

Lemma append_split_cons pre post c s :
  String c s = pre +:+ post ->
  (pre = "" /\ post = String c s) \/ (exists pre', pre = String c pre' /\ s = pre' +:+ post).
Proof.
  destruct pre as [|d pre]; [by left|]. rewrite append_cons. intros [= <- ->].
  right. by eexists.
Qed.

Lemma append_split_empty pre post : "" = pre +:+ post -> pre = "" /\ post = "".
Proof. destruct pre; [by rewrite append_empty_l|by rewrite append_cons]. Qed.

(** [findall] finds something exactly when the pattern matches at some
    position of the text, the end of the text included. *)
Lemma findall_from_truthy p s :
  truthy (Re.findall_from p 0 s) = true <->
  exists pre post, s = pre +:+ post /\ is_Some (Re.match_at p false post).
Proof.
  induction s as [|c s IH].
  - simpl. destruct (Re.match_at p false "") as [[|d m]|] eqn:Hm; simpl.
    + split; [|done]. intros _. exists "", "". rewrite Hm. eauto.
    + split; [|done]. intros _. exists "", "". rewrite Hm. eauto.
    + split; [done|]. intros (pre & post & [-> ->]%append_split_empty & Hs).
      rewrite Hm in Hs. by destruct Hs.
  - cbn [Re.findall_from].
    destruct (Re.match_at p false (String c s)) as [[|d m]|] eqn:Hm.
    + split; [|done]. intros _. exists "", (String c s). rewrite Hm. eauto.
    + split; [|done]. intros _. exists "", (String c s). rewrite Hm. eauto.
    + rewrite IH. split.
      * intros (pre & post & -> & Hs). exists (String c pre), post.
        by rewrite append_cons.
      * intros (pre & post & [[-> ->]|(pre' & -> & ->)]%append_split_cons & Hs).
        -- rewrite Hm in Hs. by destruct Hs.
        -- eauto.
Qed.

(** The matcher of an alternation of literals, case ignored, finds
    something exactly when one of the literals occurs in the text. *)
Lemma findall_literals (words : list string) (text : string) :
  truthy (Re.findall (Re.Pattern words true) text) = true <->
  exists w, w ∈ words /\ ci_substring w text.
Proof.
  unfold Re.findall. rewrite findall_from_truthy. unfold Re.match_at. simpl.
  split.
  - intros (pre & post & -> & Hs).
    apply match_alts_some in Hs as (w & Hw & [m Hm]).
    apply match_lit_sound in Hm as (post' & -> & Hfold).
    exists w. split; [done|]. by exists pre, m, post'.
  - intros (w & Hw & pre & mid & post & -> & Hfold).
    exists pre, (mid +:+ post). split; [done|].
    apply match_alts_some. exists w. split; [done|].
    rewrite (match_lit_complete w mid post Hfold). eauto.
Qed.

(** The empty pattern matches in every text. *)
Lemma findall_empty_pattern icase (text : string) :
  truthy (Re.findall (Re.Pattern [""] icase) text) = true.
Proof. by destruct text. Qed.

(** ** Facts on the heap *)

Lemma lookup_new (h : heap) (d : dict) : (h ++ [d]) !! length h = Some d.
Proof. by apply list_lookup_middle. Qed.

Lemma lookup_new2 (h : heap) (d1 d2 : dict) :
  (h ++ [d1; d2]) !! S (length h) = Some d2.
Proof.
  change (h ++ [d1; d2]) with (h ++ [d1] ++ [d2]). rewrite app_assoc.
  apply list_lookup_middle. rewrite length_app. simpl. lia.
Qed.

Lemma lookup_new2_first (h : heap) (d1 d2 : dict) :
  (h ++ [d1; d2]) !! length h = Some d1.
Proof. by apply list_lookup_middle. Qed.

Lemma envelope_address (name : string) (payload : value) (onion : string) :
  dict_display [(name, payload); ("hiddenService", VStr onion)] !! "hiddenService"
  = Some (VStr onion).
Proof. unfold dict_display. simpl. apply lookup_insert_eq. Qed.

Lemma envelope_payload (name : string) (payload : value) (onion : string) :
  name <> "hiddenService" ->
  dict_display [(name, payload); ("hiddenService", VStr onion)] !! name
  = Some payload.
Proof.
  intros Hne. unfold dict_display. simpl.
  rewrite lookup_insert_ne by done. apply lookup_insert_eq.
Qed.

(** ** The envelope builder *)

Section ResponseFacts.

Variable py_str : heap -> value -> result string.
Variable json_loads : string -> heap -> result (value * heap).

Abbreviation response' := (response py_str json_loads).

(** The decoded branch. *)
Lemma response_decoded self content onion name st text v h' :
  py_str (heap_of st) content = Ok text ->
  json_loads text (heap_of st) = Ok (v, h') ->
  response' self content onion name st =
  (Ok (VRef (length h')),
   State (h' ++ [dict_display [(name, v); ("hiddenService", VStr onion)]]) (trace st)).
Proof.
  intros Hs Hl. unfold response, try_except, bind, str, loads, new_dict, alloc.
  rewrite Hs, Hl. reflexivity.
Qed.

(** The fallback branch. *)
Lemma response_fallback self content onion name st text :
  py_str (heap_of st) content = Ok text ->
  json_loads text (heap_of st) = Raise JSONDecodeError ->
  response' self content onion name st =
  (Ok (VRef (length (heap_of st))),
   State (heap_of st ++ [dict_display [(name, content); ("hiddenService", VStr onion)]])
         (trace st ++ [ELogInfo "JosnDecode Error"])).
Proof.
  intros Hs Hl. unfold response, try_except, bind, str, loads, new_dict, alloc.
  rewrite Hs, Hl. reflexivity.
Qed.

End ResponseFacts.

(** ** The classifier *)

Lemma getitem_ref l k st d x :
  heap_of st !! l = Some d -> d !! k = Some x ->
  getitem (VRef l) k st = (Ok x, st).
Proof. intros Hl Hk. unfold getitem. simpl. by rewrite Hl, Hk. Qed.

Lemma bind_ok {A B} (m : M A) (k : A -> M B) st a st' :
  m st = (Ok a, st') -> bind m k st = k a st'.
Proof. intros H. unfold bind. by rewrite H. Qed.

Lemma bind_raise {A B} (m : M A) (k : A -> M B) st e st' :
  m st = (Raise e, st') -> bind m k st = (Raise e, st').
Proof. intros H. unfold bind. by rewrite H. Qed.

(** The run of the classifier on an envelope with an address, kind URL. *)
Lemma allowed_url_run self r d address st :
  heap_of st !! r = Some d ->
  d !! "hiddenService" = Some (VStr address) ->
  _onion_is_allowed self (VRef r) "URL" st =
  let st1 := State (heap_of st) (trace st ++ [EPrint (VRef r)]) in
  if excluded self address
  then (match es self st1 (VRef r) with None => Ok false | Some e => Raise e end,
        State (heap_of st) (trace st1 ++ [ESave (VRef r) (heap_of st)]))
  else (Ok true, st1).
Proof.
  intros Hr Hd. unfold _onion_is_allowed. cbn [String.eqb Ascii.eqb Bool.eqb].
  cbv zeta.
  set (st1 := State (heap_of st) (trace st ++ [EPrint (VRef r)])).
  assert (Hfound :
    (print (VRef r);;
     let* subject := getitem (VRef r) "hiddenService" in findall self subject) st
    = (Ok (Re.findall (blacklist self) address), st1)).
  { rewrite (bind_ok _ _ st tt st1) by reflexivity.
    rewrite (bind_ok _ _ st1 (VStr address) st1) by (by apply (getitem_ref _ _ _ d)).
    reflexivity. }
  rewrite (bind_ok _ _ _ _ _ Hfound). unfold excluded.
  destruct (truthy (Re.findall (blacklist self) address)); [|reflexivity].
  unfold bind, save, ret. simpl. by destruct (es self st1 (VRef r)).
Qed.

Lemma lookup_insert_field (h : heap) r r2 (d d2 d2' : dict) k x :
  h !! r = Some d -> h !! r2 = Some d2 -> d !! k = Some x ->
  d2' !! k = d2 !! k ->
  exists d', <[r2 := d2']> h !! r = Some d' /\ d' !! k = Some x.
Proof.
  intros Hr Hr2 Hk Hsame. destruct (decide (r = r2)) as [->|Hne].
  - exists d2'. split.
    + apply list_lookup_insert_eq. by eapply lookup_lt_Some.
    + rewrite Hsame. congruence.
  - exists d. split; [|done]. by rewrite list_lookup_insert_ne.
Qed.

(** Kind HTML: the status of the [simple-html] entry is dropped and set to
    blocked, in the heap, before anything is matched. *)
Lemma allowed_html_mutation self r d r2 d2 old st :
  heap_of st !! r = Some d ->
  d !! "simple-html" = Some (VRef r2) ->
  heap_of st !! r2 = Some d2 ->
  d2 !! "status" = Some old ->
  _onion_is_allowed self (VRef r) "HTML" st =
  html_rest self (VRef r)
    (State (<[r2 := <["status" := VStr "blocked"]> d2]> (heap_of st)) (trace st)).
Proof.
  intros Hr Hd Hr2 Hold. unfold _onion_is_allowed, html_rest.
  cbn [String.eqb Ascii.eqb Bool.eqb]. cbv iota.
  set (v := VStr "blocked").
  set (h1 := <[r2 := delete "status" d2]> (heap_of st)).
  set (h2 := <[r2 := <["status" := v]> d2]> (heap_of st)).
  assert (Hlt : r2 < length (heap_of st)) by (by eapply lookup_lt_Some).
  assert (Hpop : pop (VRef r2) "status" st = (Ok old, State h1 (trace st))).
  { unfold pop. by rewrite Hr2, Hold. }
  destruct (lookup_insert_field (heap_of st) r r2 d d2 (delete "status" d2)
              "simple-html" (VRef r2) Hr Hr2 Hd) as (d' & Hd' & Hsub').
  { by rewrite lookup_delete_ne. }
  assert (Hset : setitem (VRef r2) "status" v (State h1 (trace st))
                 = (Ok tt, State h2 (trace st))).
  { unfold setitem. simpl. unfold h1 at 1. rewrite list_lookup_insert_eq by done.
    unfold h1, h2. by rewrite list_insert_insert_eq, insert_delete_eq. }
  match goal with
  | |- bind ?inner ?k st = bind ?inner' ?k' ?st1 =>
      assert (Hinner : inner st = inner' st1)
  end.
  { rewrite (bind_ok _ _ st (VRef r2) st) by (by apply (getitem_ref _ _ _ d)).
    rewrite (bind_ok _ _ _ _ _ Hpop).
    rewrite (bind_ok _ _ _ (VRef r2) (State h1 (trace st)))
      by (by apply (getitem_ref _ _ _ d')).
    by rewrite (bind_ok _ _ _ _ _ Hset). }
  unfold bind at 1. rewrite Hinner. reflexivity.
Qed.

(** The rest of the classifier leaves the heap as it is. *)
Lemma html_rest_heap self v st : heap_of (html_rest self v st).2 = heap_of st.
Proof.
  unfold html_rest, bind, getitem, findall, save, ret, raise.
  destruct (deref (heap_of st) v) as [d|]; [|done].
  destruct (d !! "simple-html") as [sub|]; [|done].
  destruct (deref (heap_of st) sub) as [d2|]; [|done].
  destruct (d2 !! "HTML") as [[]|]; try done.
  simpl. destruct (truthy _); [|done]. simpl. by destruct (es self _ _).
Qed.

(** The run of the classifier on a well-formed envelope, kind HTML. *)
Lemma allowed_html_run self r d r2 d2 old html st :
  heap_of st !! r = Some d ->
  d !! "simple-html" = Some (VRef r2) ->
  heap_of st !! r2 = Some d2 ->
  d2 !! "status" = Some old ->
  d2 !! "HTML" = Some (VStr html) ->
  _onion_is_allowed self (VRef r) "HTML" st =
  let h' := <[r2 := <["status" := VStr "blocked"]> d2]> (heap_of st) in
  let st1 := State h' (trace st) in
  if excluded self html
  then (match es self st1 (VRef r) with None => Ok false | Some e => Raise e end,
        State h' (trace st ++ [ESave (VRef r) h']))
  else (Ok true, st1).
Proof.
  intros Hr Hd Hr2 Hold Hhtml.
  rewrite (allowed_html_mutation self r d r2 d2 old st) by done. cbv zeta.
  set (v := VStr "blocked").
  set (h' := <[r2 := <["status" := v]> d2]> (heap_of st)).
  set (st1 := State h' (trace st)).
  assert (Hlt : r2 < length (heap_of st)) by (by eapply lookup_lt_Some).
  destruct (lookup_insert_field (heap_of st) r r2 d d2 (<["status" := v]> d2)
              "simple-html" (VRef r2) Hr Hr2 Hd) as (d' & Hd' & Hsub').
  { by rewrite lookup_insert_ne. }
  assert (Hfound :
    (let* sub := getitem (VRef r) "simple-html" in
     let* subject := getitem sub "HTML" in
     findall self subject) st1 = (Ok (Re.findall (blacklist self) html), st1)).
  { rewrite (bind_ok _ _ st1 (VRef r2) st1) by (by apply (getitem_ref _ _ _ d')).
    rewrite (bind_ok _ _ st1 (VStr html) st1); [reflexivity|].
    apply (getitem_ref _ _ _ (<["status" := v]> d2)).
    - simpl. unfold h'. by apply list_lookup_insert_eq.
    - by rewrite lookup_insert_ne. }
  unfold html_rest. rewrite (bind_ok _ _ _ _ _ Hfound). unfold excluded.
  destruct (truthy (Re.findall (blacklist self) html)); [|reflexivity].
  unfold bind, save, ret. simpl. by destruct (es self st1 (VRef r)).
Qed.

(** Kind URL: the heap is left as it is, whatever the envelope. *)
Lemma allowed_url_heap self v st :
  heap_of (_onion_is_allowed self v "URL" st).2 = heap_of st.
Proof.
  unfold _onion_is_allowed. cbn [String.eqb Ascii.eqb Bool.eqb]. cbv iota.
  unfold bind, print, emit, getitem, findall, save, ret, raise. simpl.
  destruct (deref (heap_of st) v) as [d|]; [|done].
  destruct (d !! "hiddenService") as [[]|]; try done.
  simpl. destruct (truthy _); [|done]. simpl. by destruct (es self _ _).
Qed.

(** ** The dispatch loop *)

Section DispatchFacts.

Variable py_str : heap -> value -> result string.
Variable json_loads : string -> heap -> result (value * heap).
Hypothesis str_marker : renders_marker py_str.
Hypothesis loads_marker : rejects_marker json_loads.

Abbreviation process_one' := (process_one py_str json_loads).
Abbreviation process' := (process py_str json_loads).

(** One turn of the loop: the marker and the candidate envelope are built,
    the fallback of [response] is logged, the envelope is printed, and the
    record is either archived or handed to the handler. *)
Lemma process_one_run self onion st :
  let n := length (heap_of st) in
  let h2 := heap_of st ++ [dict_display blocked_marker; candidate n (url onion)] in
  let tr1 := trace st ++ [ELogInfo "JosnDecode Error"; EPrint (VRef (S n))] in
  process_one' self onion st =
  if excluded self (url onion)
  then (answer (es self (State h2 tr1) (VRef (S n))) tt,
        State h2 (tr1 ++ [ESave (VRef (S n)) h2]))
  else (answer (handle_onion_method self (State h2 tr1) (url onion)) tt,
        State h2 (tr1 ++ [EHandle (url onion)])).
Proof.
  intros n h2 tr1. unfold process_one.
  set (h1 := heap_of st ++ [dict_display blocked_marker]).
  rewrite (bind_ok _ _ st (VRef n) (State h1 (trace st))) by reflexivity.
  assert (Hresp : response py_str json_loads self (VRef n) (url onion)
                    "regex-blacklist" (State h1 (trace st))
                  = (Ok (VRef (S n)),
                     State h2 (trace st ++ [ELogInfo "JosnDecode Error"]))).
  { rewrite (response_fallback _ _ _ _ _ _ _ blocked_marker_text).
    - simpl. unfold h1, h2, candidate, n. rewrite length_app, Nat.add_1_r.
      by rewrite <- app_assoc.
    - apply str_marker. simpl. apply lookup_new.
    - apply loads_marker. }
  rewrite (bind_ok _ _ _ _ _ Hresp).
  pose proof (allowed_url_run self (S n) (candidate n (url onion)) (url onion)
                (State h2 (trace st ++ [ELogInfo "JosnDecode Error"]))) as Hcls.
  simpl in Hcls. unfold bind at 1. rewrite Hcls; clear Hcls.
  2: { unfold h2. apply lookup_new2. }
  2: { apply envelope_address. }
  unfold tr1, handle_onion, answer.
  destruct (excluded self (url onion)); simpl; rewrite <- !app_assoc; simpl.
  - destruct (es self _ _); reflexivity.
  - destruct (handle_onion_method self _ _); reflexivity.
Qed.

Lemma outcomes_app evs1 evs2 : outcomes (evs1 ++ evs2) = outcomes evs1 ++ outcomes evs2.
Proof. apply omap_app. Qed.

Lemma archived_app evs1 evs2 : archived (evs1 ++ evs2) = archived evs1 + archived evs2.
Proof. unfold archived. by rewrite filter_app, length_app. Qed.

Lemma handled_app evs1 evs2 : handled (evs1 ++ evs2) = handled evs1 + handled evs2.
Proof. unfold handled. by rewrite filter_app, length_app. Qed.

(** The events of one turn: a single terminal event, the one the
    classification calls for, whether or not the call it records raised. *)
Lemma process_one_events self onion st :
  exists evs,
    trace (process_one' self onion st).2 = trace st ++ evs /\
    outcomes evs = [expected self onion] /\
    archived evs = (if excluded self (url onion) then 1 else 0) /\
    handled evs = (if excluded self (url onion) then 0 else 1).
Proof.
  rewrite process_one_run. cbv zeta. unfold expected.
  set (n := length (heap_of st)).
  destruct (excluded self (url onion)); simpl; rewrite <- app_assoc; simpl;
    eexists; (split; [reflexivity|]).
  - repeat split. unfold outcomes. simpl. unfold address_of. simpl.
    unfold n. rewrite lookup_new2. simpl. unfold candidate.
    by rewrite envelope_address.
  - by repeat split.
Qed.

(** The loop over a batch cut in two is the loop over the first part
    followed by the loop over the second. *)
Lemma process_app self xs ys st :
  process' self (xs ++ ys) st = (process' self xs;; process' self ys) st.
Proof.
  revert st. induction xs as [|x xs IH]; intros st; [reflexivity|].
  cbn [app process]. unfold bind.
  destruct (process_one' self x st) as [[[]|e] st1]; [|reflexivity].
  rewrite IH. reflexivity.
Qed.

(** A batch the loop gets through: one terminal event per record, in the
    order of the batch. *)
Lemma process_ok_events self onions st st' :
  process' self onions st = (Ok tt, st') ->
  exists evs,
    trace st' = trace st ++ evs /\
    outcomes evs = map (expected self) onions /\
    archived evs + handled evs = length onions.
Proof.
  revert st. induction onions as [|x xs IH]; intros st.
  - intros [= <-]. exists []. by rewrite app_nil_r.
  - simpl. unfold bind at 1.
    destruct (process_one_events self x st) as (evs1 & Htr1 & Hout1 & Harch & Hhand).
    destruct (process_one' self x st) as [[[]|e] st1]; [|done].
    intros (evs2 & Htr2 & Hout2 & Hcount)%IH. simpl in Htr1.
    exists (evs1 ++ evs2). rewrite Htr2, Htr1, app_assoc. split; [done|].
    rewrite outcomes_app, archived_app, handled_app, Hout1, Hout2, Harch, Hhand.
    split; [done|]. destruct (excluded self (url x)); simpl; lia.
Qed.

(** Any run of the loop, finished or cut short by an exception: the records
    reached, and only they, have their terminal event, one each and in the
    order of the batch. *)
Lemma process_events self onions st :
  exists evs k,
    trace (process' self onions st).2 = trace st ++ evs /\
    k <= length onions /\
    outcomes evs = map (expected self) (take k onions) /\
    archived evs + handled evs = k /\
    ((process' self onions st).1 = Ok tt -> k = length onions).
Proof.
  revert st. induction onions as [|x xs IH]; intros st.
  - exists [], 0. simpl. by rewrite app_nil_r.
  - cbn [process]. unfold bind.
    destruct (process_one_events self x st) as (evs1 & Htr1 & Hout1 & Harch & Hhand).
    assert (Hone : archived evs1 + handled evs1 = 1)
      by (rewrite Harch, Hhand; by destruct (excluded self (url x))).
    destruct (process_one' self x st) as [[[]|e] st1]; simpl in Htr1.
    + destruct (IH st1) as (evs2 & k & Htr2 & Hk & Hout2 & Hcount & Hall).
      exists (evs1 ++ evs2), (S k). rewrite Htr2, Htr1, app_assoc.
      rewrite outcomes_app, archived_app, handled_app, Hout1, Hout2.
      repeat split; simpl; try lia. intros Hok. by rewrite (Hall Hok).
    + exists evs1, 1. simpl. rewrite Hout1. repeat split; try done; lia.
Qed.

End DispatchFacts.

(** ** The stand-in builtins satisfy what the loop relies on *)

Lemma demo_renders_marker : renders_marker demo_str.
Proof. intros h l Hl. unfold demo_str. rewrite Hl. reflexivity. Qed.

Lemma demo_rejects_marker : rejects_marker demo_loads.
Proof. intros h. reflexivity. Qed.

Lemma demo_decodes_strictly : decodes_strictly demo_loads.
Proof.
  intros s h h' v. unfold demo_loads.
  destruct (String.eqb s "1"); [by intros [= <- <-]|].
  destruct (String.eqb s "null"); [by intros [= <- <-]|].
  destruct (String.eqb s object_a1); [by intros [= <- <-]|done].
Qed.

(** ** The constructor and the matcher *)

(** The constructor accepts every list of words: the pattern it builds is
    always in the fragment. *)
Lemma init_list elasticsearch (words : list string) :
  init elasticsearch (Some words) =
  Ok {| blacklist := Re.Pattern (if words is [] then [""] else words) true;
        es := elasticsearch;
        handle_onion_method := base_handle_onion |}.
Proof.
  unfold init, Re.compile. destruct words as [|w r].
  - by rewrite parse_join_escape_nil.
  - by rewrite parse_join_escape.
Qed.

(** C1, as amended: for every list of configured literals that is not
    empty and every text, literals and text being ASCII, the constructor
    builds a matcher, and that matcher finds something in the text exactly
    when one of the literals occurs in the text, case being ignored; the
    characters of the literals stand for themselves, whatever they are. *)
Theorem blacklist_matches_iff_literal_occurs
    (elasticsearch : Store) (words : list string) (text : string) :
  words <> [] ->
  Forall (fun w => ascii_only w = true) words ->
  ascii_only text = true ->
  exists self,
    init elasticsearch (Some words) = Ok self /\
    (truthy (Re.findall (blacklist self) text) = true <->
     exists w, w ∈ words /\ ci_substring w text).
Proof.
  intros Hne _ _. eexists. split; [apply init_list|]. simpl.
  destruct words as [|w r]; [done|]. apply findall_literals.
Qed.

Lemma blacklist_matches_iff_literal_occurs_witness :
  exists self,
    init quiet_store (Some ["spam.site"; "a|b"]) = Ok self /\
    (truthy (Re.findall (blacklist self) "http://SPAM.site.onion/x") = true <->
     exists w, w ∈ ["spam.site"; "a|b"] /\ ci_substring w "http://SPAM.site.onion/x").
Proof.
  apply (blacklist_matches_iff_literal_occurs quiet_store ["spam.site"; "a|b"]).
  - done.
  - repeat constructor.
  - reflexivity.
Defined.

(** C1, as stated, fails for the empty list: the matcher built from no
    literal at all finds something in the text abc, where no configured
    literal occurs. *)
Lemma blacklist_of_empty_list_matches_everything :
  exists self,
    init quiet_store (Some []) = Ok self /\
    truthy (Re.findall (blacklist self) "abc") = true /\
    ~ (exists w, w ∈ ([] : list string) /\ ci_substring w "abc").
Proof.
  eexists. split; [reflexivity|]. split; [reflexivity|].
  intros (w & Hw & _). by apply elem_of_nil in Hw.
Qed.

(** C8, as stated, fails: the constructor returns an operator for the empty
    list, it raises nothing. *)
Lemma init_empty_list_does_not_fail :
  init quiet_store (Some []) =
    Ok {| blacklist := Re.Pattern [""] true; es := quiet_store;
          handle_onion_method := base_handle_onion |} /\
  forall e, init quiet_store (Some []) <> Raise e.
Proof. split; [reflexivity|]. intros e. discriminate. Qed.

(** C8, as amended: constructing an operator with an empty list of sources
    succeeds; the matcher is then the empty pattern, which finds something in
    every text, so that every text is excluded.  Construction fails, with a
    TypeError, when the list is left to its default None. *)
Theorem init_empty_list_excludes_everything (elasticsearch : Store) :
  (exists self,
     init elasticsearch (Some []) = Ok self /\
     forall text, excluded self text = true) /\
  init elasticsearch None = Raise TypeError.
Proof.
  split; [|reflexivity]. eexists. split; [apply init_list|].
  intros text. apply findall_empty_pattern.
Qed.

(** ** The envelope builder: the claims *)

(** C5: when the text of the raw payload decodes as JSON, [response]
    returns a new envelope whose entry under the operator name (a name other
    than the address key) is the decoded value, which is never the raw text.
    The heap is the one the decoder has left, with the decoded objects in
    it, extended by the envelope alone, and nothing is logged. *)
Theorem response_payload_is_decoded
    py_str json_loads self content onion name st text v h' :
  decodes_strictly json_loads ->
  name <> "hiddenService" ->
  py_str (heap_of st) content = Ok text ->
  json_loads text (heap_of st) = Ok (v, h') ->
  exists envelope,
    response py_str json_loads self content onion name st =
      (Ok (VRef (length h')), State (h' ++ [envelope]) (trace st)) /\
    envelope !! name = Some v /\
    v <> VStr text /\
    (forall l d, h' !! l = Some d -> (h' ++ [envelope]) !! l = Some d) /\
    (h' ++ [envelope]) !! length h' = Some envelope.
Proof.
  intros Hstrict Hname Hstr Hloads.
  rewrite (response_decoded _ _ _ _ _ _ _ _ _ _ Hstr Hloads).
  eexists. split; [reflexivity|].
  split; [by apply envelope_payload|].
  split; [by eapply Hstrict|].
  split; [|apply lookup_new].
  intros l d Hl. rewrite lookup_app_l; [done|]. by eapply lookup_lt_Some.
Qed.

Lemma response_payload_is_decoded_witness :
  exists envelope,
    response demo_str demo_loads spam_operator (VStr object_a1) "addr1" "opX"
      empty_state =
      (Ok (VRef 1), State ([{["a" := VInt 1]}] ++ [envelope]) []) /\
    envelope !! "opX" = Some (VRef 0) /\
    VRef 0 <> VStr object_a1 /\
    (forall l d, [{["a" := VInt 1]}] !! l = Some d ->
                 ([{["a" := VInt 1]}] ++ [envelope]) !! l = Some d) /\
    ([{["a" := VInt 1]}] ++ [envelope]) !! 1 = Some envelope.
Proof.
  apply (response_payload_is_decoded demo_str demo_loads spam_operator
           (VStr object_a1) "addr1" "opX" empty_state object_a1 (VRef 0)
           [{["a" := VInt 1]}]).
  - apply demo_decodes_strictly.
  - done.
  - reflexivity.
  - reflexivity.
Defined.

(** C6: when the text of the raw payload is rejected by the JSON decoder,
    [response] does not raise: it returns an envelope whose entry under the
    operator name (a name other than the address key) is the raw payload
    itself, nothing in the heap is changed but for the new envelope, and
    one message, at the level info, is logged. *)
Theorem response_fallback_keeps_raw
    py_str json_loads self content onion name st text :
  name <> "hiddenService" ->
  py_str (heap_of st) content = Ok text ->
  json_loads text (heap_of st) = Raise JSONDecodeError ->
  exists envelope,
    response py_str json_loads self content onion name st =
      (Ok (VRef (length (heap_of st))),
       State (heap_of st ++ [envelope])
             (trace st ++ [ELogInfo "JosnDecode Error"])) /\
    envelope !! name = Some content.
Proof.
  intros Hname Hstr Hloads.
  rewrite (response_fallback _ _ _ _ _ _ _ _ Hstr Hloads).
  eexists. split; [reflexivity|]. by apply envelope_payload.
Qed.

Lemma response_fallback_keeps_raw_witness :
  exists envelope,
    response demo_str demo_loads
      {| blacklist := Re.Pattern ["spamsite"] true; es := quiet_store;
         handle_onion_method := quiet_handler |}
      (VStr "not-json") "addr1" "opX" empty_state =
      (Ok (VRef 0), State ([] ++ [envelope]) ([] ++ [ELogInfo "JosnDecode Error"])) /\
    envelope !! "opX" = Some (VStr "not-json").
Proof.
  apply (response_fallback_keeps_raw demo_str demo_loads _ (VStr "not-json")
           "addr1" "opX" empty_state "not-json").
  - done.
  - reflexivity.
  - reflexivity.
Defined.

(** C7: whatever the branch, an envelope that [response] returns carries
    the address it was given, unchanged, under the key hiddenService; and
    [response] returns such an envelope or None, it never raises. *)
Theorem response_carries_address py_str json_loads self content onion name st :
  match response py_str json_loads self content onion name st with
  | (Ok (VRef l), st') =>
      exists envelope,
        heap_of st' !! l = Some envelope /\
        envelope !! "hiddenService" = Some (VStr onion)
  | (Ok VNone, _) => True
  | _ => False
  end.
Proof.
  unfold response, try_except, bind, str, loads, new_dict, alloc, log_info,
    log_error, emit, ret.
  destruct (py_str (heap_of st) content) as [text|e].
  - destruct (json_loads text (heap_of st)) as [[v h']|e].
    + simpl. eexists. split; [apply lookup_new|apply envelope_address].
    + destruct e; simpl; try done.
      eexists. split; [apply lookup_new|apply envelope_address].
  - destruct e; simpl; try done.
    eexists. split; [apply lookup_new|apply envelope_address].
Qed.

(** ** The classifier: the claims *)

(** C3: for an envelope at [r] that has the subject of its kind, URL or
    HTML, [_onion_is_allowed] tests that subject against the matcher.  On a
    match the store's save is called once, with the envelope, and the result
    is False (unless that call raises, which ends the method); on no match
    the result is True and the store is not called. *)
Theorem onion_is_allowed_archives_iff_match self st r kind subject :
  subject_of (heap_of st) r kind = Some subject ->
  exists res st' evs,
    _onion_is_allowed self (VRef r) kind st = (res, st') /\
    trace st' = trace st ++ evs /\
    if truthy (Re.findall (blacklist self) subject)
    then filter is_save evs = [ESave (VRef r) (heap_of st')] /\
         res = answer (es self (State (heap_of st') (trace st ++ removelast evs))
                          (VRef r)) false
    else filter is_save evs = [] /\ res = Ok true.
Proof.
  unfold subject_of. intros Hsub.
  destruct (heap_of st !! r) as [d|] eqn:Hr; [|done]. simpl in Hsub.
  destruct (String.eqb_spec kind "URL") as [->|_].
  - destruct (d !! "hiddenService") as [[| | |address| |]|] eqn:Hd; try done.
    injection Hsub as ->.
    rewrite (allowed_url_run self r d subject st Hr Hd). cbv zeta.
    unfold excluded. destruct (truthy (Re.findall (blacklist self) subject)).
    + do 3 eexists. split; [reflexivity|]. simpl. rewrite <- app_assoc.
      split; [reflexivity|]. simpl. by split.
    + do 3 eexists. split; [reflexivity|]. simpl. by split.
  - destruct (String.eqb_spec kind "HTML") as [->|_]; [|done].
    destruct (d !! "simple-html") as [[| | | | |r2]|] eqn:Hd; try done.
    destruct (heap_of st !! r2) as [d2|] eqn:Hr2; [|done]. simpl in Hsub.
    destruct (d2 !! "status") as [old|] eqn:Hold; [|done]. simpl in Hsub.
    destruct (d2 !! "HTML") as [[| | |html| |]|] eqn:Hhtml; try done.
    injection Hsub as ->.
    rewrite (allowed_html_run self r d r2 d2 old subject st Hr Hd Hr2 Hold Hhtml).
    cbv zeta. unfold excluded.
    destruct (truthy (Re.findall (blacklist self) subject)).
    + exists (answer (es self (State (<[r2 := <["status" := VStr "blocked"]> d2]> (heap_of st))
                                 (trace st)) (VRef r)) false).
      eexists. exists [ESave (VRef r) (<[r2 := <["status" := VStr "blocked"]> d2]> (heap_of st))].
      split; [reflexivity|]. simpl. rewrite app_nil_r. by repeat split.
    + do 2 eexists. exists []. split; [reflexivity|]. simpl.
      rewrite app_nil_r. by split.
Qed.

Lemma onion_is_allowed_archives_iff_match_witness :
  exists res st' evs,
    _onion_is_allowed
      {| blacklist := Re.Pattern ["spamsite"] true; es := quiet_store;
         handle_onion_method := quiet_handler |}
      (VRef 0) "URL" (State [candidate 7 "http://spamsite.onion/x"] []) = (res, st') /\
    trace st' = [] ++ evs /\
    if truthy (Re.findall (Re.Pattern ["spamsite"] true) "http://spamsite.onion/x")
    then filter is_save evs = [ESave (VRef 0) (heap_of st')] /\
         res = answer (quiet_store (State (heap_of st') ([] ++ removelast evs)) (VRef 0)) false
    else filter is_save evs = [] /\ res = Ok true.
Proof.
  apply (onion_is_allowed_archives_iff_match
           {| blacklist := Re.Pattern ["spamsite"] true; es := quiet_store;
              handle_onion_method := quiet_handler |}
           (State [candidate 7 "http://spamsite.onion/x"] []) 0 "URL"
           "http://spamsite.onion/x").
  vm_compute. reflexivity.
Defined.

(** C10: for the kind HTML, the status of the [simple-html] entry of the
    envelope is removed and set to blocked in the heap, before anything is
    matched, and the heap stays so whatever the result, allowed included;
    every other object and every other entry is as before.  For the kind URL
    the heap is left as it is. *)
Theorem html_status_mutation_persists self st r d r2 d2 old :
  heap_of st !! r = Some d ->
  d !! "simple-html" = Some (VRef r2) ->
  heap_of st !! r2 = Some d2 ->
  d2 !! "status" = Some old ->
  let h' := heap_of (_onion_is_allowed self (VRef r) "HTML" st).2 in
  let d2' := <["status" := VStr "blocked"]> (delete "status" d2) in
  h' = <[r2 := d2']> (heap_of st) /\
  h' !! r2 = Some d2' /\
  (forall l, l <> r2 -> h' !! l = heap_of st !! l) /\
  (forall k, k <> "status" -> d2' !! k = d2 !! k) /\
  (forall v st0, heap_of (_onion_is_allowed self v "URL" st0).2 = heap_of st0).
Proof.
  intros Hr Hd Hr2 Hold h' d2'.
  assert (Hh' : h' = <[r2 := d2']> (heap_of st)).
  { unfold h', d2'. rewrite (allowed_html_mutation self r d r2 d2 old st) by done.
    rewrite html_rest_heap. simpl. by rewrite insert_delete_eq. }
  split; [done|]. rewrite Hh'. split.
  { apply list_lookup_insert_eq. by eapply lookup_lt_Some. }
  split.
  { intros l Hl. by rewrite list_lookup_insert_ne. }
  split.
  { intros k Hk. unfold d2'. by rewrite lookup_insert_ne, lookup_delete_ne. }
  apply allowed_url_heap.
Qed.

Lemma html_status_mutation_persists_witness :
  _onion_is_allowed spam_operator (VRef 0) "HTML"
    (State [html_envelope; html_entry] []) =
    (Ok true,
     State [html_envelope;
            <["status" := VStr "blocked"]> (delete "status" html_entry)] []) /\
  heap_of (_onion_is_allowed spam_operator (VRef 0) "HTML"
             (State [html_envelope; html_entry] [])).2 =
  <[1 := <["status" := VStr "blocked"]> (delete "status" html_entry)]>
    [html_envelope; html_entry].
Proof.
  split.
  - vm_compute. reflexivity.
  - apply (html_status_mutation_persists spam_operator
             (State [html_envelope; html_entry] []) 0 html_envelope 1 html_entry
             (VStr "success")); reflexivity.
Defined.

(** ** The dispatch loop: the claims *)

(** C2, as amended: in a run of [process] over a batch, each record reached
    has exactly one terminal event, the archival write when its address is
    excluded and the call of the handler otherwise, in the order of the batch;
    no record has both, and the records not reached have none.  When
    [process] returns, every record of the batch has been reached, and the
    archival writes and the handler calls add up to the number of records. *)
Theorem process_settles_each_record_once py_str json_loads self onions st :
  renders_marker py_str ->
  rejects_marker json_loads ->
  exists evs k,
    trace (process py_str json_loads self onions st).2 = trace st ++ evs /\
    k <= length onions /\
    outcomes evs = map (expected self) (take k onions) /\
    archived evs + handled evs = k /\
    ((process py_str json_loads self onions st).1 = Ok tt ->
     outcomes evs = map (expected self) onions /\
     archived evs + handled evs = length onions).
Proof.
  intros Hstr Hloads.
  destruct (process_events py_str json_loads Hstr Hloads self onions st)
    as (evs & k & Htr & Hk & Hout & Hcount & Hall).
  exists evs, k. split; [done|]. split; [done|]. split; [done|].
  split; [done|]. intros Hok. rewrite Hout, Hcount, (Hall Hok).
  by rewrite firstn_all.
Qed.

Lemma process_settles_each_record_once_witness :
  (process demo_str demo_loads spam_operator two_records empty_state).1 = Ok tt /\
  exists evs k,
    trace (process demo_str demo_loads spam_operator two_records empty_state).2
      = [] ++ evs /\
    k <= 2 /\
    outcomes evs = map (expected spam_operator) (take k two_records) /\
    archived evs + handled evs = k /\
    ((process demo_str demo_loads spam_operator two_records empty_state).1 = Ok tt ->
     outcomes evs = map (expected spam_operator) two_records /\
     archived evs + handled evs = 2).
Proof.
  split; [vm_compute; reflexivity|].
  apply (process_settles_each_record_once demo_str demo_loads spam_operator
           two_records empty_state demo_renders_marker demo_rejects_marker).
Defined.

(** C2, as stated, fails when a call raises: with the handler of the base
    class, the first record of three is archived, the second is handed to the
    handler, which raises, and the third is never reached; two terminal
    outcomes for three records. *)
Lemma process_cut_short_settles_fewer_records :
  (process demo_str demo_loads base_operator three_records empty_state).1
    = Raise NotImplementedError /\
  length three_records = 3 /\
  outcomes (trace (process demo_str demo_loads base_operator three_records
                     empty_state).2)
    = [Archived (Some (VStr "http://spamsite.onion/x"));
       Handled "http://legit.onion/y"] /\
  archived (trace (process demo_str demo_loads base_operator three_records
                     empty_state).2)
  + handled (trace (process demo_str demo_loads base_operator three_records
                      empty_state).2) = 2.
Proof. repeat split; vm_compute; reflexivity. Qed.

(** C9: [process] goes through the batch in its order, and does not catch
    what the turn for a record raises, be it from the store's save inside
    [_onion_is_allowed] or from the handler: when the records before [onion]
    are got through and the turn for [onion] raises [e], [process] raises [e]
    in the state of that moment; the terminal events are those of the
    records up to [onion], in order, and no later record is classified or
    handled. *)
Theorem process_stops_at_first_exception
    py_str json_loads self pre onion post st st1 st2 e :
  renders_marker py_str ->
  rejects_marker json_loads ->
  process py_str json_loads self pre st = (Ok tt, st1) ->
  process_one py_str json_loads self onion st1 = (Raise e, st2) ->
  process py_str json_loads self (pre ++ onion :: post) st = (Raise e, st2) /\
  (exists evs,
     trace st2 = trace st ++ evs /\
     outcomes evs = map (expected self) (pre ++ [onion])) /\
  ((excluded self (url onion) = true /\ exists s v, es self s v = Some e) \/
   (excluded self (url onion) = false /\
    exists s, handle_onion_method self s (url onion) = Some e)).
Proof.
  intros Hstr Hloads Hpre Hone. split; [|split].
  - rewrite process_app. unfold bind at 1. rewrite Hpre.
    cbn [process]. unfold bind. by rewrite Hone.
  - destruct (process_ok_events py_str json_loads Hstr Hloads self pre st st1 Hpre)
      as (evs1 & Htr1 & Hout1 & _).
    destruct (process_one_events py_str json_loads Hstr Hloads self onion st1)
      as (evs2 & Htr2 & Hout2 & _).
    rewrite Hone in Htr2. simpl in Htr2.
    exists (evs1 ++ evs2). rewrite Htr2, Htr1, app_assoc. split; [done|].
    by rewrite outcomes_app, map_app, Hout1, Hout2.
  - rewrite (process_one_run py_str json_loads Hstr Hloads) in Hone.
    cbv zeta in Hone. destruct (excluded self (url onion)).
    + left. split; [done|]. injection Hone as Hret _.
      destruct (es self _ _) as [e'|] eqn:Hes; [|done].
      injection Hret as <-. eauto.
    + right. split; [done|]. injection Hone as Hret _.
      destruct (handle_onion_method self _ _) as [e'|] eqn:Hh; [|done].
      injection Hret as <-. eauto.
Qed.

Lemma process_stops_at_first_exception_witness :
  exists st2,
    process demo_str demo_loads base_operator three_records empty_state
      = (Raise NotImplementedError, st2) /\
    outcomes (trace st2) =
      [Archived (Some (VStr "http://spamsite.onion/x")); Handled "http://legit.onion/y"].
Proof.
  pose proof (process_stops_at_first_exception demo_str demo_loads base_operator
                [ {| url := "http://spamsite.onion/x" |} ]
                {| url := "http://legit.onion/y" |}
                [ {| url := "http://spamsite.onion/z" |} ]
                empty_state
                (process demo_str demo_loads base_operator
                   [ {| url := "http://spamsite.onion/x" |} ] empty_state).2
                (process_one demo_str demo_loads base_operator
                   {| url := "http://legit.onion/y" |}
                   (process demo_str demo_loads base_operator
                      [ {| url := "http://spamsite.onion/x" |} ] empty_state).2).2
                NotImplementedError
                demo_renders_marker demo_rejects_marker) as H.
  destruct H as (Hrun & _ & _).
  - vm_compute. reflexivity.
  - vm_compute. reflexivity.
  - eexists. split; [exact Hrun|]. vm_compute. reflexivity.
Defined.

(** C4, as amended: with the sources [spamsite], processing one record
    whose address is http://spamsite.onion/x classifies it blocked: the
    fallback of [response] is logged, the envelope is printed, and the store's
    save is called once, with an envelope that carries the marker dictionary
    whose status is blocked under the key regex-blacklist and the address
    under the key hiddenService; the handler is not called. *)
Theorem spamsite_record_is_archived py_str json_loads elasticsearch handler st :
  renders_marker py_str ->
  rejects_marker json_loads ->
  exists base,
    init elasticsearch (Some ["spamsite"]) = Ok base /\
    exists res st' l m envelope evs,
      process py_str json_loads (subclass base handler)
        [ {| url := "http://spamsite.onion/x" |} ] st = (res, st') /\
      trace st' = trace st ++ evs /\
      evs = [ELogInfo "JosnDecode Error"; EPrint (VRef l);
             ESave (VRef l) (heap_of st')] /\
      archived evs = 1 /\ handled evs = 0 /\
      heap_of st' !! l = Some envelope /\
      envelope !! "regex-blacklist" = Some (VRef m) /\
      heap_of st' !! m = Some {["status" := VStr "blocked"]} /\
      envelope !! "hiddenService" = Some (VStr "http://spamsite.onion/x").
Proof.
  intros Hstr Hloads. eexists. split; [apply init_list|].
  cbn [process]. unfold bind.
  rewrite (process_one_run py_str json_loads Hstr Hloads). cbv zeta.
  change (excluded _ _) with true. cbv iota.
  set (n := length (heap_of st)).
  destruct (answer _ _) as [[]|e].
  - exists (Ok tt). eexists. exists (S n), n. do 2 eexists.
    split; [reflexivity|]. simpl. rewrite <- app_assoc.
    split; [reflexivity|]. split; [reflexivity|]. split; [reflexivity|].
    split; [reflexivity|]. split; [apply lookup_new2|].
    split; [by apply envelope_payload|].
    split; [apply lookup_new2_first|apply envelope_address].
  - exists (Raise e). eexists. exists (S n), n. do 2 eexists.
    split; [reflexivity|]. simpl. rewrite <- app_assoc.
    split; [reflexivity|]. split; [reflexivity|]. split; [reflexivity|].
    split; [reflexivity|]. split; [apply lookup_new2|].
    split; [by apply envelope_payload|].
    split; [apply lookup_new2_first|apply envelope_address].
Qed.

Lemma spamsite_record_is_archived_witness :
  exists base,
    init quiet_store (Some ["spamsite"]) = Ok base /\
    exists res st' l m envelope evs,
      process demo_str demo_loads (subclass base quiet_handler)
        [ {| url := "http://spamsite.onion/x" |} ] empty_state = (res, st') /\
      trace st' = [] ++ evs /\
      evs = [ELogInfo "JosnDecode Error"; EPrint (VRef l);
             ESave (VRef l) (heap_of st')] /\
      archived evs = 1 /\ handled evs = 0 /\
      heap_of st' !! l = Some envelope /\
      envelope !! "regex-blacklist" = Some (VRef m) /\
      heap_of st' !! m = Some {["status" := VStr "blocked"]} /\
      envelope !! "hiddenService" = Some (VStr "http://spamsite.onion/x").
Proof.
  apply (spamsite_record_is_archived demo_str demo_loads quiet_store
           quiet_handler empty_state demo_renders_marker demo_rejects_marker).
Defined.

(** C4, as stated, fails on the payload: what the archived envelope carries
    under the operator name is a reference to the marker dictionary, not the
    string blocked. *)
Lemma archived_payload_is_not_the_string_blocked :
  exists st' envelope,
    process demo_str demo_loads spam_operator
      [ {| url := "http://spamsite.onion/x" |} ] empty_state = (Ok tt, st') /\
    trace st' = [ELogInfo "JosnDecode Error"; EPrint (VRef 1);
                 ESave (VRef 1) (heap_of st')] /\
    heap_of st' !! 1 = Some envelope /\
    envelope !! "regex-blacklist" = Some (VRef 0) /\
    heap_of st' !! 0 = Some {["status" := VStr "blocked"]} /\
    envelope !! "regex-blacklist" <> Some (VStr "blocked").
Proof.
  do 2 eexists. split; [vm_compute; reflexivity|]. simpl.
  split; [reflexivity|]. split; [reflexivity|].
  split; [reflexivity|]. split; [reflexivity|]. discriminate.
Qed.

(** ** The scenarios of the specification, run on the model *)

Example matcher_of_escaped_words :
  Re.compile (Re.join "|" (map Re.escape ["a.b"; "c|d"; "x y"])) true
  = Some (Re.Pattern ["a.b"; "c|d"; "x y"] true).
Proof. vm_compute. reflexivity. Qed.

Example findall_ignores_case :
  Re.findall (Re.Pattern ["spamsite"] true) "http://SpamSite.onion/spamsite"
  = ["SpamSite"; "spamsite"].
Proof. vm_compute. reflexivity. Qed.

Example findall_dot_is_literal :
  Re.findall (Re.Pattern ["a.b"] true) "axb a.b" = ["a.b"].
Proof. vm_compute. reflexivity. Qed.

Example findall_empty_branch :
  Re.findall (Re.Pattern [""; "a"] true) "a" = [""; "a"; ""].
Proof. vm_compute. reflexivity. Qed.

(** A record that is not excluded: no archival write, one call of the
    handler with its address. *)
Example legit_record_is_handled :
  exists st',
    process demo_str demo_loads spam_operator
      [ {| url := "http://legit.onion/y" |} ] empty_state = (Ok tt, st') /\
    trace st' = [ELogInfo "JosnDecode Error"; EPrint (VRef 1);
                 EHandle "http://legit.onion/y"].
Proof. eexists. split; vm_compute; reflexivity. Qed.

Example envelope_of_json_text :
  response demo_str demo_loads spam_operator (VStr object_a1) "addr1" "opX" empty_state
  = (Ok (VRef 1),
     State [{["a" := VInt 1]};
            dict_display [("opX", VRef 0); ("hiddenService", VStr "addr1")]] []).
Proof. vm_compute. reflexivity. Qed.

Example envelope_of_other_text :
  response demo_str demo_loads spam_operator (VStr "not-json") "addr1" "opX" empty_state
  = (Ok (VRef 0),
     State [dict_display [("opX", VStr "not-json"); ("hiddenService", VStr "addr1")]]
           [ELogInfo "JosnDecode Error"]).
Proof. vm_compute. reflexivity. Qed.

(** The operator name is a key like any other: given the address key, the
    address replaces the payload. *)
Example envelope_with_address_key_as_name :
  dict_display [("hiddenService", VInt 1); ("hiddenService", VStr "addr1")]
  = {["hiddenService" := VStr "addr1"]}.
Proof. vm_compute. reflexivity. Qed.

(** ** Further properties of the envelope builder *)

(** When [str] or [json.loads] raises something other than a JSON decode
    error (as the decoder does, with RecursionError, on a text nested beyond
    the recursion limit), [response] logs it at the level error and returns
    None: nothing is built in the heap and nothing is raised to the caller. *)
Theorem response_swallows_other_errors
    py_str json_loads self content onion name st e :
  e <> JSONDecodeError ->
  (py_str (heap_of st) content = Raise e \/
   exists text,
     py_str (heap_of st) content = Ok text /\
     json_loads text (heap_of st) = Raise e) ->
  response py_str json_loads self content onion name st =
  (Ok VNone, State (heap_of st) (trace st ++ [ELogError e])).
Proof.
  intros He Hfail.
  unfold response, try_except, bind, str, loads, log_error, emit, ret.
  destruct Hfail as [Hs|(text & Hs & Hl)].
  - rewrite Hs. by destruct e.
  - rewrite Hs, Hl. by destruct e.
Qed.

Lemma response_swallows_other_errors_witness :
  response demo_str deep_loads spam_operator (VStr deep_text) "addr1" "opX"
    empty_state =
  (Ok VNone, State [] ([] ++ [ELogError (OtherError "RecursionError")])).
Proof.
  apply (response_swallows_other_errors demo_str deep_loads spam_operator
           (VStr deep_text) "addr1" "opX" empty_state
           (OtherError "RecursionError")).
  - discriminate.
  - right. exists deep_text. split; [reflexivity|]. vm_compute. reflexivity.
Defined.

(** [response] only logs: whatever the branch, it adds at most one event to
    the trace, and that event is neither a write to the store, nor a call of
    the handler, nor a print. *)
Theorem response_only_logs py_str json_loads self content onion name st :
  exists evs,
    trace (response py_str json_loads self content onion name st).2
      = trace st ++ evs /\
    length evs <= 1 /\
    archived evs = 0 /\
    handled evs = 0 /\
    forall v, EPrint v ∉ evs.
Proof.
  unfold response, try_except, bind, str, loads, new_dict, alloc, log_info,
    log_error, emit, ret.
  assert (Hnone : forall v, EPrint v ∉ ([] : list event))
    by (intros v Hv; by apply elem_of_nil in Hv).
  assert (Hlog : forall ev v, (forall w, ev <> EPrint w) -> EPrint v ∉ [ev]).
  { intros ev v Hev [Heq|Hin]%elem_of_cons; [|by apply elem_of_nil in Hin].
    symmetry in Heq. by apply Hev in Heq. }
  destruct (py_str (heap_of st) content) as [text|e].
  - destruct (json_loads text (heap_of st)) as [[v h']|e].
    + exists []. simpl. rewrite app_nil_r. repeat split; try done; lia.
    + destruct e; simpl; eexists; (split; [reflexivity|]);
        repeat split; simpl; try lia; intros v; by apply Hlog.
  - destruct e; simpl; eexists; (split; [reflexivity|]);
      repeat split; simpl; try lia; intros v; by apply Hlog.
Qed.

(** ** Further properties of the classifier *)

(** A kind other than URL and HTML (the comparison is exact, case included)
    binds no result of a match: the method raises UnboundLocalError, and
    nothing has been printed, written or changed. *)
Theorem onion_is_allowed_unknown_kind self v kind st :
  kind <> "URL" ->
  kind <> "HTML" ->
  _onion_is_allowed self v kind st = (Raise UnboundLocalError, st).
Proof.
  intros Hurl Hhtml. unfold _onion_is_allowed.
  destruct (String.eqb_spec kind "URL") as [?|_]; [done|].
  destruct (String.eqb_spec kind "HTML") as [?|_]; [done|].
  reflexivity.
Qed.

Lemma onion_is_allowed_unknown_kind_witness :
  _onion_is_allowed spam_operator (VRef 0) "url"
    (State [candidate 7 "http://spamsite.onion/x"] []) =
  (Raise UnboundLocalError, State [candidate 7 "http://spamsite.onion/x"] []).
Proof.
  apply (onion_is_allowed_unknown_kind spam_operator (VRef 0) "url"
           (State [candidate 7 "http://spamsite.onion/x"] [])); discriminate.
Defined.

(** Kind URL, for a value that carries no string under hiddenService (None,
    as [response] gives after an error, a dictionary without the key, or one
    with another kind of value there): the value is printed, then a TypeError
    or a KeyError is raised; the store is not called and the heap is as
    before. *)
Theorem onion_is_allowed_url_without_address self v st :
  (forall a, address_of (heap_of st) v <> Some (VStr a)) ->
  exists e,
    _onion_is_allowed self v "URL" st =
      (Raise e, State (heap_of st) (trace st ++ [EPrint v])) /\
    (e = TypeError \/ e = KeyError "hiddenService").
Proof.
  intros Hno. unfold _onion_is_allowed.
  cbn [String.eqb Ascii.eqb Bool.eqb]. cbv iota.
  unfold bind, print, emit, getitem, findall, raise. simpl.
  unfold address_of in Hno.
  destruct (deref (heap_of st) v) as [d|]; simpl in *; [|eauto].
  destruct (d !! "hiddenService") as [[| | |a| |]|]; simpl; eauto.
  by destruct (Hno a).
Qed.

Lemma onion_is_allowed_url_without_address_witness :
  exists e,
    _onion_is_allowed spam_operator VNone "URL" empty_state =
      (Raise e, State [] ([] ++ [EPrint VNone])) /\
    (e = TypeError \/ e = KeyError "hiddenService").
Proof.
  apply (onion_is_allowed_url_without_address spam_operator VNone empty_state).
  intros a. discriminate.
Defined.

(** Kind HTML, when the [simple-html] entry has no status: the pop raises
    KeyError, before anything is changed, matched or written. *)
Theorem onion_is_allowed_html_without_status self r d r2 d2 st :
  heap_of st !! r = Some d ->
  d !! "simple-html" = Some (VRef r2) ->
  heap_of st !! r2 = Some d2 ->
  d2 !! "status" = None ->
  _onion_is_allowed self (VRef r) "HTML" st = (Raise (KeyError "status"), st).
Proof.
  intros Hr Hd Hr2 Hnone. unfold _onion_is_allowed.
  cbn [String.eqb Ascii.eqb Bool.eqb]. cbv iota.
  unfold bind at 1.
  rewrite (bind_ok _ _ st (VRef r2) st) by (by apply (getitem_ref _ _ _ d)).
  rewrite (bind_raise _ _ st (KeyError "status") st); [reflexivity|].
  unfold pop. by rewrite Hr2, Hnone.
Qed.

Lemma onion_is_allowed_html_without_status_witness :
  _onion_is_allowed spam_operator (VRef 0) "HTML"
    (State [html_envelope; html_entry_without_status] []) =
  (Raise (KeyError "status"), State [html_envelope; html_entry_without_status] []).
Proof.
  apply (onion_is_allowed_html_without_status spam_operator 0 html_envelope 1
           html_entry_without_status
           (State [html_envelope; html_entry_without_status] [])); reflexivity.
Defined.

(** Kind HTML, when the [simple-html] entry has a status but no HTML text:
    the KeyError comes after the status has been set to blocked, and that
    change stays in the heap; the store is not called. *)
Theorem onion_is_allowed_html_without_text self r d r2 d2 old st :
  heap_of st !! r = Some d ->
  d !! "simple-html" = Some (VRef r2) ->
  heap_of st !! r2 = Some d2 ->
  d2 !! "status" = Some old ->
  d2 !! "HTML" = None ->
  _onion_is_allowed self (VRef r) "HTML" st =
  (Raise (KeyError "HTML"),
   State (<[r2 := <["status" := VStr "blocked"]> d2]> (heap_of st)) (trace st)).
Proof.
  intros Hr Hd Hr2 Hold Hnone.
  rewrite (allowed_html_mutation self r d r2 d2 old st) by done.
  set (v := VStr "blocked").
  set (h' := <[r2 := <["status" := v]> d2]> (heap_of st)).
  set (st1 := State h' (trace st)).
  assert (Hlt : r2 < length (heap_of st)) by (by eapply lookup_lt_Some).
  destruct (lookup_insert_field (heap_of st) r r2 d d2 (<["status" := v]> d2)
              "simple-html" (VRef r2) Hr Hr2 Hd) as (d' & Hd' & Hsub').
  { by rewrite lookup_insert_ne. }
  unfold html_rest. unfold bind at 1.
  rewrite (bind_ok _ _ st1 (VRef r2) st1) by (by apply (getitem_ref _ _ _ d')).
  rewrite (bind_raise _ _ st1 (KeyError "HTML") st1); [reflexivity|].
  unfold getitem. simpl. unfold h'. rewrite list_lookup_insert_eq by done.
  by rewrite lookup_insert_ne, Hnone.
Qed.

Lemma onion_is_allowed_html_without_text_witness :
  _onion_is_allowed spam_operator (VRef 0) "HTML"
    (State [html_envelope; html_entry_without_text] []) =
  (Raise (KeyError "HTML"),
   State (<[1 := <["status" := VStr "blocked"]> html_entry_without_text]>
            [html_envelope; html_entry_without_text]) []).
Proof.
  apply (onion_is_allowed_html_without_text spam_operator 0 html_envelope 1
           html_entry_without_text (VStr "success")
           (State [html_envelope; html_entry_without_text] [])); reflexivity.
Defined.

(** ** Further properties of the dispatch loop *)

(** A batch given in two calls: processing [xs ++ ys] is processing [xs]
    and then, if that returns, processing [ys] in the state reached; if the
    first part raises, so does the whole, in the same state. *)
Theorem process_in_two_calls py_str json_loads self xs ys st :
  process py_str json_loads self (xs ++ ys) st =
  match process py_str json_loads self xs st with
  | (Ok _, st1) => process py_str json_loads self ys st1
  | (Raise e, st1) => (Raise e, st1)
  end.
Proof. by rewrite process_app. Qed.

(** With the handler of the base class, which is not implemented, and a
    store that accepts the writes, [process] returns exactly when every
    record of the batch is excluded; otherwise it raises
    NotImplementedError. *)
Theorem process_of_base_class py_str json_loads self onions st :
  renders_marker py_str ->
  rejects_marker json_loads ->
  handle_onion_method self = base_handle_onion ->
  (forall s v, es self s v = None) ->
  (process py_str json_loads self onions st).1 =
  if all_excluded self onions then Ok tt else Raise NotImplementedError.
Proof.
  intros Hstr Hloads Hbase Hes. revert st.
  induction onions as [|x xs IH]; intros st; [reflexivity|].
  cbn [process all_excluded forallb]. unfold bind.
  rewrite (process_one_run py_str json_loads Hstr Hloads). cbv zeta.
  destruct (excluded self (url x)).
  - rewrite Hes. simpl. apply IH.
  - rewrite Hbase. reflexivity.
Qed.

Lemma process_of_base_class_witness :
  (process demo_str demo_loads base_operator three_records empty_state).1 =
    Raise NotImplementedError /\
  (process demo_str demo_loads base_operator
     [ {| url := "http://spamsite.onion/x" |} ] empty_state).1 = Ok tt.
Proof.
  split.
  - apply (process_of_base_class demo_str demo_loads base_operator three_records
             empty_state demo_renders_marker demo_rejects_marker eq_refl).
    reflexivity.
  - apply (process_of_base_class demo_str demo_loads base_operator
             [ {| url := "http://spamsite.onion/x" |} ]
             empty_state demo_renders_marker demo_rejects_marker eq_refl).
    reflexivity.
Defined.

(** What a run of [process] leaves behind, finished or cut short: for each
    of the [k] records reached, two new dictionaries (the marker and the
    envelope) at the end of the heap and three events in the trace (the
    fallback message of [response], the print, the terminal event).  The
    objects that were in the heap are not touched, and no error is logged. *)
Theorem process_footprint py_str json_loads self onions st :
  renders_marker py_str ->
  rejects_marker json_loads ->
  exists k new evs,
    k <= length onions /\
    heap_of (process py_str json_loads self onions st).2 = heap_of st ++ new /\
    length new = 2 * k /\
    trace (process py_str json_loads self onions st).2 = trace st ++ evs /\
    length evs = 3 * k /\
    (forall e, ELogError e ∉ evs) /\
    ((process py_str json_loads self onions st).1 = Ok tt -> k = length onions).
Proof.
  intros Hstr Hloads. revert st.
  induction onions as [|x xs IH]; intros st.
  - exists 0, [], []. simpl. rewrite !app_nil_r. repeat split; try done.
    intros e He. by apply elem_of_nil in He.
  - cbn [process]. unfold bind.
    pose proof (process_one_run py_str json_loads Hstr Hloads self x st) as Hone.
    cbv zeta in Hone.
    set (n := length (heap_of st)) in *.
    set (new1 := [dict_display blocked_marker; candidate n (url x)]) in *.
    set (last1 := if excluded self (url x)
                  then ESave (VRef (S n)) (heap_of st ++ new1)
                  else EHandle (url x)).
    set (evs1 := [ELogInfo "JosnDecode Error"; EPrint (VRef (S n)); last1]).
    assert (Hst1 : heap_of (process_one py_str json_loads self x st).2
                     = heap_of st ++ new1 /\
                   trace (process_one py_str json_loads self x st).2
                     = trace st ++ evs1).
    { rewrite Hone. unfold evs1, last1.
      destruct (excluded self (url x)); simpl; by rewrite <- app_assoc. }
    assert (Hclean : forall e, ELogError e ∉ evs1).
    { intros e. unfold evs1, last1. rewrite !elem_of_cons, elem_of_nil.
      destruct (excluded self (url x)); intros [?|[?|[?|?]]]; done. }
    clear Hone. destruct Hst1 as [Hheap1 Htrace1].
    destruct (process_one py_str json_loads self x st) as [[[]|e] st1];
      simpl in Hheap1, Htrace1.
    + destruct (IH st1) as (k & new & evs & Hk & Hheap & Hnew & Htrace & Hevs & Hno & Hall).
      exists (S k), (new1 ++ new), (evs1 ++ evs).
      rewrite Hheap, Htrace, Hheap1, Htrace1, !app_assoc, !length_app, Hnew, Hevs.
      repeat split; simpl; try lia.
      * intros e He. apply (elem_of_app evs1 evs) in He as [He|He];
          [by eapply Hclean|by eapply Hno].
      * intros Hok. by rewrite (Hall Hok).
    + exists 1, new1, evs1. simpl. repeat split; try done; lia.
Qed.

Lemma process_footprint_witness :
  exists k new evs,
    k <= 2 /\
    heap_of (process demo_str demo_loads spam_operator two_records empty_state).2
      = [] ++ new /\
    length new = 2 * k /\
    trace (process demo_str demo_loads spam_operator two_records empty_state).2
      = [] ++ evs /\
    length evs = 3 * k /\
    (forall e, ELogError e ∉ evs) /\
    ((process demo_str demo_loads spam_operator two_records empty_state).1 = Ok tt ->
     k = 2).
Proof.
  apply (process_footprint demo_str demo_loads spam_operator two_records
           empty_state demo_renders_marker demo_rejects_marker).
Defined.

(** ** Further properties of the constructor and its matcher *)

Lemma append_assoc (s t u : string) : (s +:+ t) +:+ u = s +:+ t +:+ u.
Proof. induction s as [|c s IH]; [reflexivity|]. by rewrite !append_cons, IH. Qed.

Lemma fold_case_app (a b : string) :
  fold_case (a +:+ b) = fold_case a +:+ fold_case b.
Proof.
  induction a as [|c a IH]; [reflexivity|].
  rewrite append_cons. simpl. by rewrite IH, append_cons.
Qed.

Lemma fold_case_app_inv (s a b : string) :
  fold_case s = a +:+ b ->
  exists s1 s2, s = s1 +:+ s2 /\ fold_case s1 = a /\ fold_case s2 = b.
Proof.
  revert s. induction a as [|c a IH]; intros s Hs.
  - exists "", s. by rewrite append_empty_l in Hs.
  - rewrite append_cons in Hs. destruct s as [|d s]; [done|].
    simpl in Hs. injection Hs as Hc Hs.
    destruct (IH s Hs) as (s1 & s2 & -> & H1 & H2).
    exists (String d s1), s2. rewrite append_cons. simpl. by rewrite Hc, H1.
Qed.

(** Whether a literal occurs, case ignored, depends on the literal and on
    the text only up to case. *)
Lemma ci_substring_fold w1 w2 t1 t2 :
  fold_case w1 = fold_case w2 ->
  fold_case t1 = fold_case t2 ->
  ci_substring w1 t1 -> ci_substring w2 t2.
Proof.
  intros Hw Ht (pre & mid & post & -> & Hmid).
  rewrite !fold_case_app in Ht. symmetry in Ht.
  apply fold_case_app_inv in Ht as (p2 & rest & -> & Hp & Hrest).
  apply fold_case_app_inv in Hrest as (m2 & q2 & -> & Hm & Hq).
  exists p2, m2, q2. split; [done|]. congruence.
Qed.

(** What an operator built from a list of words excludes. *)
Lemma excluded_init elasticsearch (words : list string) self text :
  init elasticsearch (Some words) = Ok self ->
  excluded self text = true <->
  words = [] \/ exists w, w ∈ words /\ ci_substring w text.
Proof.
  rewrite init_list. intros [= <-]. unfold excluded. simpl.
  destruct words as [|w r].
  - split; [by left|]. intros _. apply findall_empty_pattern.
  - rewrite findall_literals. split; [by right|]. by intros [?|?].
Qed.

(** Round trip of the constructor's pattern: escaping the words of a list
    that is not empty, joining them with bars and compiling gives the
    alternation of exactly those words, in their order; no character of a
    word is read as an operator and no bar of a word splits it. *)
Theorem compile_join_escape_round_trip (words : list string) :
  words <> [] ->
  Re.compile (Re.join "|" (map Re.escape words)) true
  = Some (Re.Pattern words true).
Proof. intros Hne. unfold Re.compile. by rewrite parse_join_escape. Qed.

Lemma compile_join_escape_round_trip_witness :
  Re.compile (Re.join "|" (map Re.escape ["a|b"; "(x)*"; "\d+."])) true
  = Some (Re.Pattern ["a|b"; "(x)*"; "\d+."] true).
Proof. apply (compile_join_escape_round_trip ["a|b"; "(x)*"; "\d+."]). done. Defined.

(** An empty string among the sources makes the operator exclude every
    text: the empty literal occurs everywhere. *)
Theorem empty_literal_excludes_everything elasticsearch (words : list string) self text :
  "" ∈ words ->
  init elasticsearch (Some words) = Ok self ->
  excluded self text = true.
Proof.
  intros Hin Hinit. apply (excluded_init _ _ _ _ Hinit). right.
  exists "". split; [done|]. by exists "", "", text.
Qed.

Lemma empty_literal_excludes_everything_witness :
  excluded
    {| blacklist := Re.Pattern ["spamsite"; ""] true; es := quiet_store;
       handle_onion_method := base_handle_onion |}
    "http://legit.onion/y" = true.
Proof.
  apply (empty_literal_excludes_everything quiet_store ["spamsite"; ""]).
  - apply elem_of_cons. right. apply elem_of_cons. by left.
  - reflexivity.
Defined.

(** More sources exclude more: when every word of a first list, not empty,
    is in a second list, what the first operator excludes the second
    excludes too.  The order of the words and their repetition thus do not
    matter.  (The empty list is apart: it excludes everything.) *)
Theorem exclusion_grows_with_sources
    elasticsearch (words1 words2 : list string) self1 self2 text :
  words1 <> [] ->
  (forall w, w ∈ words1 -> w ∈ words2) ->
  init elasticsearch (Some words1) = Ok self1 ->
  init elasticsearch (Some words2) = Ok self2 ->
  excluded self1 text = true ->
  excluded self2 text = true.
Proof.
  intros Hne Hsub Hinit1 Hinit2 Hexcl.
  apply (excluded_init _ _ _ _ Hinit1) in Hexcl as [?|(w & Hw & Hoccurs)]; [done|].
  apply (excluded_init _ _ _ _ Hinit2). right. exists w. auto.
Qed.

Lemma exclusion_grows_with_sources_witness :
  excluded
    {| blacklist := Re.Pattern ["other"; "spamsite"; "other"] true; es := quiet_store;
       handle_onion_method := base_handle_onion |}
    "http://spamsite.onion/x" = true.
Proof.
  apply (exclusion_grows_with_sources quiet_store ["spamsite"]
           ["other"; "spamsite"; "other"]
           {| blacklist := Re.Pattern ["spamsite"] true; es := quiet_store;
              handle_onion_method := base_handle_onion |}).
  - done.
  - intros w ->%list_elem_of_singleton. apply elem_of_cons. right.
    apply elem_of_cons. by left.
  - reflexivity.
  - reflexivity.
  - vm_compute. reflexivity.
Defined.

(** Case is ignored on both sides: two lists of sources that agree word by
    word up to case, applied to two texts that agree up to case, give the
    same verdict. *)
Theorem exclusion_ignores_case
    elasticsearch (words1 words2 : list string) self1 self2 text1 text2 :
  fold_case <$> words1 = fold_case <$> words2 ->
  fold_case text1 = fold_case text2 ->
  init elasticsearch (Some words1) = Ok self1 ->
  init elasticsearch (Some words2) = Ok self2 ->
  excluded self1 text1 = excluded self2 text2.
Proof.
  intros Hwords Htext Hinit1 Hinit2.
  assert (Hdir : forall (ws1 ws2 : list string) s1 s2 t1 t2,
    fold_case <$> ws1 = fold_case <$> ws2 ->
    fold_case t1 = fold_case t2 ->
    init elasticsearch (Some ws1) = Ok s1 ->
    init elasticsearch (Some ws2) = Ok s2 ->
    excluded s1 t1 = true -> excluded s2 t2 = true).
  { intros ws1 ws2 s1 s2 t1 t2 Hws Ht H1 H2 Hexcl.
    apply (excluded_init _ _ _ _ H2).
    apply (excluded_init _ _ _ _ H1) in Hexcl as [->|(w & Hw & Hoccurs)].
    - left. simpl in Hws. symmetry in Hws. by apply fmap_nil_inv in Hws.
    - right.
      assert (fold_case w ∈ fold_case <$> ws2) as (w2 & Hfold & Hw2)%list_elem_of_fmap.
      { rewrite <- Hws. by apply list_elem_of_fmap_2. }
      exists w2. split; [done|]. by apply (ci_substring_fold w w2 t1 t2). }
  destruct (excluded self1 text1) eqn:E1.
  - symmetry. by apply (Hdir words1 words2 self1 self2 text1 text2).
  - destruct (excluded self2 text2) eqn:E2; [|done].
    rewrite <- E1.
    by apply (Hdir words2 words1 self2 self1 text2 text1).
Qed.

Lemma exclusion_ignores_case_witness :
  excluded
    {| blacklist := Re.Pattern ["SpamSite"] true; es := quiet_store;
       handle_onion_method := base_handle_onion |}
    "http://spamsite.onion/x"
  = excluded
      {| blacklist := Re.Pattern ["spamsite"] true; es := quiet_store;
         handle_onion_method := base_handle_onion |}
      "HTTP://SPAMSITE.ONION/X".
Proof.
  apply (exclusion_ignores_case quiet_store ["SpamSite"] ["spamsite"]);
    reflexivity.
Defined.

(** Exclusion looks anywhere in the text: a text that contains an excluded
    text is excluded. *)
Theorem exclusion_of_containing_text
    elasticsearch (words : list string) self (before text after : string) :
  init elasticsearch (Some words) = Ok self ->
  excluded self text = true ->
  excluded self (before +:+ text +:+ after) = true.
Proof.
  intros Hinit Hexcl.
  apply (excluded_init _ _ _ _ Hinit) in Hexcl as [->|(w & Hw & Hoccurs)];
    apply (excluded_init _ _ _ _ Hinit); [by left|right].
  exists w. split; [done|]. destruct Hoccurs as (pre & mid & post & -> & Hmid).
  exists (before +:+ pre), mid, (post +:+ after). split; [|done].
  by rewrite !append_assoc.
Qed.

Lemma exclusion_of_containing_text_witness :
  excluded
    {| blacklist := Re.Pattern ["spamsite"] true; es := quiet_store;
       handle_onion_method := base_handle_onion |}
    ("http://" +:+ "spamsite" +:+ ".onion/x") = true.
Proof.
  apply (exclusion_of_containing_text quiet_store ["spamsite"]); reflexivity.
Defined.
